(** * VideoService: a shallow embedding of src/lib/video-service.ts

    The TypeScript class [VideoService] dispatches five operations either
    to the provider SDK ('frontend' mode) or to the same-origin backend
    over HTTP ('backend' mode).  This development embeds

    - the JavaScript built-ins the class relies on ([parseInt] with radix
      10, [RegExp.prototype.test] for the one pattern used,
      [encodeURIComponent], truthiness, property reads) in [Module Js];
    - the two transports as effects of a small free monad in [Module Net],
      interpreted against an environment of oracles that also records the
      trace of calls made;
    - the class itself in [Module VideoService];

    and then states and proves the properties of the specification. *)

From Stdlib Require Import List NArith ZArith Bool Ascii String Lia.
From Stdlib Require Import SpecFloat.
Import ListNotations.
Local Open Scope list_scope.

Set Implicit Arguments.

(** ** JavaScript values and built-ins *)

Module Js.

(** A JavaScript string is a sequence of UTF-16 code units. *)
Definition code_unit := N.
Definition jsstring := list code_unit.

(** Literals are written as Rocq strings and read as Latin-1 code units. *)
Definition js (s : string) : jsstring :=
  map N_of_ascii (list_ascii_of_string s).

Fixpoint jsstring_eqb (a b : jsstring) : bool :=
  match a, b with
  | [], [] => true
  | x :: a', y :: b' => N.eqb x y && jsstring_eqb a' b'
  | _, _ => false
  end.

(** Numbers.  [NumInt z] is the Number whose mathematical value is the
    integer [z]; non-integral finite doubles are not represented: no
    operation of the class distinguishes them from an integer other than
    0, 401 and 403, except through their decimal printing. *)
Inductive JsNumber :=
| NumInt (z : Z)
| NumNaN
| NumInf (negative : bool).

Definition isNaN (n : JsNumber) : bool :=
  match n with NumNaN => true | _ => false end.

(** [n <= 0] *)
Definition le_zero (n : JsNumber) : bool :=
  match n with
  | NumInt z => (z <=? 0)%Z
  | NumNaN => false
  | NumInf negative => negative
  end.

(** [n === k] for an integer constant [k] *)
Definition num_is (n : JsNumber) (k : Z) : bool :=
  match n with NumInt z => (z =? k)%Z | _ => false end.

(** *** Decimal digits *)

Definition is_digit (c : code_unit) : bool :=
  ((48 <=? c) && (c <=? 57))%N.

Definition digit_unit (d : N) : code_unit := (48 + d)%N.

Definition digit_value (c : code_unit) : N := (c - 48)%N.

(** The mathematical value of a run of decimal digits, most significant
    digit first. *)
Definition decimal_value (ds : jsstring) : N :=
  fold_left (fun acc c => (10 * acc + digit_value c)%N) ds 0%N.

Fixpoint digits_fuel (fuel : nat) (n : N) (suffix : jsstring) : jsstring :=
  match fuel with
  | O => suffix
  | S fuel' =>
      let suffix' := digit_unit (n mod 10) :: suffix in
      if (n / 10 =? 0)%N then suffix' else digits_fuel fuel' (n / 10) suffix'
  end.

(** The decimal numeral of a natural number, without sign or leading
    zeros: the canonical string form of an integer. *)
Definition decimal (n : N) : jsstring :=
  digits_fuel (S (N.to_nat (N.log2 n))) n [].

(** [Number.prototype.toString()] (radix 10).  For [NumInt z] the plain
    decimal numeral is what JavaScript prints when [z] is a safe integer
    (|z| <= 2^53 - 1).  A larger integer is printed from the double
    nearest to it, with the fewest digits that identify that double and
    in exponent notation from 10^21 on; such integers, and numbers with a
    fraction, are outside this model (see [Spec.printable]). *)
Definition number_toString (n : JsNumber) : jsstring :=
  match n with
  | NumInt z =>
      if (z <? 0)%Z then js "-" ++ decimal (Z.to_N (- z)) else decimal (Z.to_N z)
  | NumNaN => js "NaN"
  | NumInf false => js "Infinity"
  | NumInf true => js "-Infinity"
  end.

(** *** parseInt(string, 10) *)

(** StrWhiteSpaceChar: WhiteSpace (TAB, VT, FF, ZWNBSP and the Unicode
    space separators) and LineTerminator (LF, CR, LS, PS). *)
Definition is_whitespace (c : code_unit) : bool :=
  ((c =? 9) || (c =? 10) || (c =? 11) || (c =? 12) || (c =? 13) || (c =? 32)
   || (c =? 160) || (c =? 5760) || ((8192 <=? c) && (c <=? 8202))
   || (c =? 8232) || (c =? 8233) || (c =? 8239) || (c =? 8287)
   || (c =? 12288) || (c =? 65279))%N.

Fixpoint trim_start (s : jsstring) : jsstring :=
  match s with
  | c :: s' => if is_whitespace c then trim_start s' else s
  | [] => []
  end.

Fixpoint leading_digits (s : jsstring) : jsstring :=
  match s with
  | c :: s' => if is_digit c then c :: leading_digits s' else []
  | [] => []
  end.

(** The sign read by [parseInt] and the text after it. *)
Definition split_sign (s : jsstring) : Z * jsstring :=
  match s with
  | c :: s' =>
      if (c =? 45)%N then ((-1)%Z, s')
      else if (c =? 43)%N then (1%Z, s')
      else (1%Z, s)
  | [] => (1%Z, [])
  end.

(** [parseInt(input, 10)]: leading white space is skipped, an optional
    sign is read, then the longest run of decimal digits; no digit at all
    gives NaN, and anything after the digits is ignored.  The result is
    kept as the exact integer: rounding it to a double changes neither
    its sign nor whether it is NaN, and -0 compares as 0. *)
Definition parseInt (input : jsstring) : JsNumber :=
  let (sign, rest) := split_sign (trim_start input) in
  match leading_digits rest with
  | [] => NumNaN
  | digits => NumInt (sign * Z.of_N (decimal_value digits))
  end.

(** *** Regular expressions

    The fragment needed for the pattern literals of the class, matched by
    Brzozowski derivatives.  A pattern written between [^] and [$]
    (without the multiline flag) is tested against the whole subject. *)
Inductive regex :=
| RFail
| REmpty
| RClass (p : code_unit -> bool)
| RSeq (r1 r2 : regex)
| RAlt (r1 r2 : regex)
| RStar (r : regex).

(** [r+] *)
Definition RPlus (r : regex) : regex := RSeq r (RStar r).
(** [\d] (no unicode or ignoreCase flag: ASCII digits only) *)
Definition RDigit : regex := RClass is_digit.
(** a literal character *)
Definition RChar (c : code_unit) : regex := RClass (N.eqb c).

Fixpoint nullable (r : regex) : bool :=
  match r with
  | RFail => false
  | REmpty => true
  | RClass _ => false
  | RSeq r1 r2 => nullable r1 && nullable r2
  | RAlt r1 r2 => nullable r1 || nullable r2
  | RStar _ => true
  end.

Fixpoint deriv (c : code_unit) (r : regex) : regex :=
  match r with
  | RFail => RFail
  | REmpty => RFail
  | RClass p => if p c then REmpty else RFail
  | RSeq r1 r2 =>
      if nullable r1
      then RAlt (RSeq (deriv c r1) r2) (deriv c r2)
      else RSeq (deriv c r1) r2
  | RAlt r1 r2 => RAlt (deriv c r1) (deriv c r2)
  | RStar r1 => RSeq (deriv c r1) (RStar r1)
  end.

(** [/^r$/.test(s)] *)
Definition regex_test (r : regex) (s : jsstring) : bool :=
  nullable (fold_left (fun r' c => deriv c r') s r).

(** *** encodeURIComponent *)

Definition in_range (lo hi c : N) : bool := ((lo <=? c) && (c <=? hi))%N.

(** uriUnreserved: letters, digits and [- _ . ! ~ * ' ( )] *)
Definition is_uri_unreserved (c : code_unit) : bool :=
  in_range 65 90 c || in_range 97 122 c || in_range 48 57 c
  || existsb (N.eqb c) [45; 95; 46; 33; 126; 42; 39; 40; 41]%N.

Definition is_lead_surrogate (c : code_unit) : bool := in_range 55296 56319 c.
Definition is_trail_surrogate (c : code_unit) : bool := in_range 56320 57343 c.

Definition hex_unit (d : N) : code_unit :=
  if (d <? 10)%N then (48 + d)%N else (55 + d)%N.

(** [%XX] with upper-case hexadecimal digits *)
Definition percent_octet (b : N) : jsstring :=
  [37%N; hex_unit (b / 16); hex_unit (b mod 16)].

Definition utf8 (cp : N) : list N :=
  if (cp <? 128)%N then [cp]
  else if (cp <? 2048)%N then [192 + cp / 64; 128 + cp mod 64]%N
  else if (cp <? 65536)%N then
    [224 + cp / 4096; 128 + (cp / 64) mod 64; 128 + cp mod 64]%N
  else
    [240 + cp / 262144; 128 + (cp / 4096) mod 64;
     128 + (cp / 64) mod 64; 128 + cp mod 64]%N.

Definition percent_encode (cp : N) : jsstring :=
  flat_map percent_octet (utf8 cp).

Definition surrogate_pair (lead trail : code_unit) : N :=
  ((lead - 55296) * 1024 + (trail - 56320) + 65536)%N.

(** [encodeURIComponent(s)]; [None] stands for the URIError thrown at an
    unpaired surrogate. *)
Fixpoint encodeURIComponent (s : jsstring) : option jsstring :=
  match s with
  | [] => Some []
  | c :: rest =>
      if is_uri_unreserved c then option_map (cons c) (encodeURIComponent rest)
      else if is_trail_surrogate c then None
      else if is_lead_surrogate c then
        match rest with
        | c2 :: rest' =>
            if is_trail_surrogate c2
            then option_map (app (percent_encode (surrogate_pair c c2)))
                            (encodeURIComponent rest')
            else None
        | [] => None
        end
      else option_map (app (percent_encode c)) (encodeURIComponent rest)
  end.

(** *** Values *)

#[local] Set Warnings "-register-all".

(** JSON-like values, plus [VError] for an object that is an instance of
    [Error] (or of a subclass), carried with its readable properties. *)
Inductive JsValue :=
| VUndefined
| VNull
| VBool (b : bool)
| VNumber (n : JsNumber)
| VString (s : jsstring)
| VArray (items : list JsValue)
| VObject (props : list (jsstring * JsValue))
| VError (props : list (jsstring * JsValue)).

(** ToBoolean *)
Definition truthy (v : JsValue) : bool :=
  match v with
  | VUndefined | VNull => false
  | VBool b => b
  | VNumber (NumInt z) => negb (z =? 0)%Z
  | VNumber NumNaN => false
  | VNumber (NumInf _) => true
  | VString s => match s with [] => false | _ => true end
  | VArray _ | VObject _ | VError _ => true
  end.

(** [typeof v === 'object'] (which holds of [null]) *)
Definition typeof_object (v : JsValue) : bool :=
  match v with
  | VNull | VArray _ | VObject _ | VError _ => true
  | _ => false
  end.

(** [v instanceof Error] *)
Definition instanceof_Error (v : JsValue) : bool :=
  match v with VError _ => true | _ => false end.

Fixpoint lookup (name : jsstring) (props : list (jsstring * JsValue)) : JsValue :=
  match props with
  | [] => VUndefined
  | (k, v) :: props' => if jsstring_eqb k name then v else lookup name props'
  end.

(** [v.name] for a property name that no built-in prototype defines
    ([error], [status], [code]); [None] stands for the TypeError raised
    when [v] is [undefined] or [null]. *)
Definition get_prop (v : JsValue) (name : jsstring) : option JsValue :=
  match v with
  | VUndefined | VNull => None
  | VObject props | VError props => Some (lookup name props)
  | _ => Some VUndefined
  end.

(** [a || b] *)
Definition or_else (a b : JsValue) : JsValue := if truthy a then a else b.

(** An optional configuration string: [undefined], [null] or a string. *)
Inductive OptString :=
| Undefined
| Null
| Str (s : jsstring).

Definition opt_value (o : OptString) : JsValue :=
  match o with
  | Undefined => VUndefined
  | Null => VNull
  | Str s => VString s
  end.

(** The string behind a truthy optional string: the branch taken by
    [if (o)] and by [o ? _ : _], with [o] narrowed to [string]. *)
Definition present (o : OptString) : option jsstring :=
  match o with
  | Str (c :: s) => Some (c :: s)
  | _ => None
  end.

(** The members [JSON.stringify] writes for an object: properties whose
    value is [undefined] are left out. *)
Definition json_members (props : list (jsstring * JsValue))
  : list (jsstring * JsValue) :=
  filter (fun kv => match snd kv with VUndefined => false | _ => true end) props.

End Js.

(** ** Transports as effects *)

Module Net.
Import Js.

(** A binary attachment chosen by the caller. *)
Record File := { file_name : jsstring; file_type : jsstring; file_bytes : list N }.

Record Blob := { blob_type : jsstring; blob_bytes : list N }.

(** Everything the class can throw: the errors it builds itself, the
    errors of the built-ins it calls, and whatever a collaborator (the
    SDK, [fetch], a response body reader) threw or rejected with.
    [InvalidApiKeyError] is declared in ./errors, outside the sources at
    hand: only its argument-less construction is used, so it is one
    constant here (the dedicated InvalidCredentialError of the
    specification). *)
Inductive Exn :=
| NewError (message : JsValue)      (* new Error(message), the argument as given *)
| NewInvalidApiKeyError             (* new InvalidApiKeyError() *)
| URIError                          (* from encodeURIComponent *)
| TypeError                         (* property read on undefined or null *)
| Foreign (thrown : JsValue).

(** *** HTTP side: what [fetch] is given and what it answers *)

Inductive FormValue :=
| FormString (s : jsstring)
| FormFile (f : File).

(** A FormData object: its entries in the order they were appended. *)
Definition FormData := list (jsstring * FormValue).

Inductive Body :=
| NoBody
| FormBody (form : FormData)
| JsonBody (members : list (jsstring * JsValue)). (* JSON.stringify of an object *)

Record Request := {
  url : jsstring;
  method : jsstring;
  headers : list (jsstring * jsstring);
  body : Body
}.

(** A response, with the outcome of reading its body either way
    ([inl] is the value the read rejects with). *)
Record Response := {
  status : N;
  statusText : jsstring;
  json : JsValue + JsValue;
  blob : JsValue + Blob
}.

(** [response.ok] *)
Definition ok (r : Response) : bool := in_range 200 299 (status r).

(** *** SDK side: what the provider client is asked *)

Inductive Variant := Video | Thumbnail | Spritesheet.

Definition variant_text (v : Variant) : jsstring :=
  match v with
  | Video => js "video"
  | Thumbnail => js "thumbnail"
  | Spritesheet => js "spritesheet"
  end.

Record VideoCreateParams := {
  vc_model : jsstring;
  vc_prompt : jsstring;
  vc_size : jsstring;
  vc_seconds : jsstring;
  vc_input_reference : option File
}.

(** The calls on [openai.videos] that resolve to a job value. *)
Inductive SdkRequest :=
| VideosCreate (params : VideoCreateParams)
| VideosRemix (sourceVideoId prompt : jsstring)
| VideosRetrieve (videoId : jsstring)
| VideosDelete (videoId : jsstring).

(** The object [openai.videos.downloadContent] resolves to: only its
    [blob()] reader is used. *)
Record Content := { content_blob : JsValue + Blob }.

(** A handle on the client built by [createFrontendOpenAI]. *)
Definition Client := N.

(** *** Programs

    A program is a tree of calls to the collaborators; each call hands
    back either the thrown (rejected) value, on the left, or the result. *)
Inductive Eff (A : Type) : Type :=
| Ret (a : A)
| Throw (e : Exn)
| CreateClient (apiKey : jsstring) (baseURL : option jsstring)
               (k : JsValue + Client -> Eff A)
| SdkVideos (c : Client) (req : SdkRequest) (k : JsValue + JsValue -> Eff A)
| SdkDownloadContent (c : Client) (videoId : jsstring) (variant : Variant)
                     (k : JsValue + Content -> Eff A)
| Fetch (req : Request) (k : JsValue + Response -> Eff A).

Arguments Ret {A} a.
Arguments Throw {A} e.

Fixpoint bind {A B : Type} (m : Eff A) (f : A -> Eff B) : Eff B :=
  match m with
  | Ret a => f a
  | Throw e => Throw e
  | CreateClient key base k => CreateClient key base (fun r => bind (k r) f)
  | SdkVideos c req k => SdkVideos c req (fun r => bind (k r) f)
  | SdkDownloadContent c id v k => SdkDownloadContent c id v (fun r => bind (k r) f)
  | Fetch req k => Fetch req (fun r => bind (k r) f)
  end.

Declare Scope eff_scope.
Delimit Scope eff_scope with eff.
Notation "x <- m ;; k" := (bind m (fun x => k))
  (at level 100, m at next level, right associativity) : eff_scope.

(** A synchronous computation that returns or throws. *)
Definition lift {A : Type} (r : Exn + A) : Eff A :=
  match r with
  | inl e => Throw e
  | inr a => Ret a
  end.

(** [await p] outside any [try]: a rejection propagates as it is. *)
Definition await {A : Type} (r : JsValue + A) : Eff A :=
  match r with
  | inl thrown => Throw (Foreign thrown)
  | inr a => Ret a
  end.

(** Modelled from the spec: the factory of ./openai-client, which is
    outside the sources at hand; the specification has the provider
    client "constructed from (credential, endpointOverride)".  Building
    it is a call whose outcome the environment decides. *)
Definition createFrontendOpenAI (apiKey : jsstring) (baseURL : option jsstring)
  : Eff Client :=
  CreateClient apiKey baseURL await.

Definition fetch (req : Request) : Eff Response := Fetch req await.

(** *** Environments and traces *)

Record Env := {
  env_client : jsstring -> option jsstring -> JsValue + Client;
  env_videos : Client -> SdkRequest -> JsValue + JsValue;
  env_download : Client -> jsstring -> Variant -> JsValue + Content;
  env_fetch : Request -> JsValue + Response
}.

Inductive Event :=
| EvCreateClient (apiKey : jsstring) (baseURL : option jsstring)
| EvSdkVideos (c : Client) (req : SdkRequest)
| EvSdkDownloadContent (c : Client) (videoId : jsstring) (variant : Variant)
| EvFetch (req : Request).

(** Runs a program against the environment's oracles; the trace lists the
    calls in the order they were made. *)
Fixpoint run {A : Type} (env : Env) (m : Eff A) : list Event * (Exn + A) :=
  match m with
  | Ret a => ([], inr a)
  | Throw e => ([], inl e)
  | CreateClient key base k =>
      let (t, r) := run env (k (env_client env key base)) in
      (EvCreateClient key base :: t, r)
  | SdkVideos c req k =>
      let (t, r) := run env (k (env_videos env c req)) in
      (EvSdkVideos c req :: t, r)
  | SdkDownloadContent c id v k =>
      let (t, r) := run env (k (env_download env c id v)) in
      (EvSdkDownloadContent c id v :: t, r)
  | Fetch req k =>
      let (t, r) := run env (k (env_fetch env req)) in
      (EvFetch req :: t, r)
  end.

Definition trace {A : Type} (env : Env) (m : Eff A) : list Event := fst (run env m).
Definition result {A : Type} (env : Env) (m : Eff A) : Exn + A := snd (run env m).

End Net.

(** ** The class *)

Module VideoService.
Import Js Net.
Local Open Scope eff_scope.

Inductive ApiMode := Backend | Frontend.

Record ServiceConfig := {
  mode : ApiMode;
  clientApiKey : OptString;
  clientPasswordHash : OptString;
  baseURL : option jsstring
}.

(** [number | string] *)
Inductive NumberOrString :=
| OfNumber (n : JsNumber)
| OfString (s : jsstring).

(** [value.toString()], which is also how a template literal prints it *)
Definition toString (value : NumberOrString) : jsstring :=
  match value with
  | OfNumber n => number_toString n
  | OfString s => s
  end.

Definition normalizeSeconds (value : NumberOrString) : Exn + jsstring :=
  let secondsValue := toString value in
  let numericValue := parseInt secondsValue in
  if isNaN numericValue || le_zero numericValue then
    inl (NewError (VString (js "Invalid duration: " ++ toString value
                            ++ js ". Duration must be a positive number.")))
  else inr secondsValue.

(** [/^\d+x\d+$/] *)
Definition sizeRegex : regex :=
  RSeq (RPlus RDigit) (RSeq (RChar (N_of_ascii "x")) (RPlus RDigit)).

Definition normalizeSize (value : jsstring) : Exn + jsstring :=
  if negb (regex_test sizeRegex value) then
    inl (NewError (VString (js "Invalid video size format: " ++ value
                            ++ js ". Must be in format WIDTHxHEIGHT (e.g., 1280x720)")))
  else inr value.

(** [typeof v === 'number' && (v === 401 || v === 403)] *)
Definition is_auth_status (v : JsValue) : bool :=
  match v with
  | VNumber n => num_is n 401 || num_is n 403
  | _ => false
  end.

(** [v === 'invalid_api_key'] *)
Definition is_invalid_api_key_code (v : JsValue) : bool :=
  match v with
  | VString s => jsstring_eqb s (js "invalid_api_key")
  | _ => false
  end.

(** The value [handleFrontendError(error)] throws (it never returns). *)
Definition handleFrontendError (error : JsValue) : Exn :=
  let invalid_key :=
    if truthy error && typeof_object error then
      match get_prop error (js "status"), get_prop error (js "code") with
      | Some status, Some code => is_auth_status status || is_invalid_api_key_code code
      | _, _ => false
      end
    else false in
  if invalid_key then NewInvalidApiKeyError
  else if instanceof_Error error then Foreign error
  else NewError (VString (js "Unexpected error while communicating with OpenAI.")).

(** [try { return await call } catch (error) { this.handleFrontendError(error) }] *)
Definition guarded {A : Type} (outcome : JsValue + A) : Eff A :=
  match outcome with
  | inr a => Ret a
  | inl error => Throw (handleFrontendError error)
  end.

Definition api_key_required : Exn :=
  NewError (VString (js "API key is required for frontend mode")).

(** [hash ? { 'x-password-hash': hash } : {}] *)
Definition hash_headers (hash : OptString) : list (jsstring * jsstring) :=
  match present hash with
  | Some h => [(js "x-password-hash", h)]
  | None => []
  end.

Record CreateParams := {
  model : jsstring;
  prompt : jsstring;
  size : jsstring;
  seconds : NumberOrString;
  input_reference : option File
}.

Definition createVideo (config : ServiceConfig) (params : CreateParams)
  : Eff JsValue :=
  normalizedSeconds <- lift (normalizeSeconds (seconds params)) ;;
  normalizedSize <- lift (normalizeSize (size params)) ;;
  match mode config with
  | Frontend =>
      match present (clientApiKey config) with
      | None => Throw api_key_required
      | Some apiKey =>
          openai <- createFrontendOpenAI apiKey (baseURL config) ;;
          let createParams :=
            {| vc_model := model params;
               vc_prompt := prompt params;
               vc_size := normalizedSize;
               vc_seconds := normalizedSeconds;
               vc_input_reference := input_reference params |} in
          SdkVideos openai (VideosCreate createParams) guarded
      end
  | Backend =>
      let apiFormData : FormData :=
        match present (clientPasswordHash config) with
        | Some h => [(js "passwordHash", FormString h)]
        | None => []
        end
        ++ [(js "model", FormString (model params));
            (js "prompt", FormString (prompt params));
            (js "size", FormString normalizedSize);
            (js "seconds", FormString normalizedSeconds)]
        ++ match input_reference params with
           | Some f => [(js "input_reference", FormFile f)]
           | None => []
           end in
      response <- fetch {| url := js "/api/videos";
                           method := js "POST";
                           headers := [];
                           body := FormBody apiFormData |} ;;
      if negb (ok response) then
        result <- await (json response) ;;
        match get_prop result (js "error") with
        | None => Throw TypeError
        | Some error =>
            Throw (NewError (or_else error
                     (VString (js "API request failed with status "
                               ++ decimal (status response)))))
        end
      else await (json response)
  end.

Definition remixVideo (config : ServiceConfig) (sourceVideoId prompt : jsstring)
  : Eff JsValue :=
  match mode config with
  | Frontend =>
      match present (clientApiKey config) with
      | None => Throw api_key_required
      | Some apiKey =>
          openai <- createFrontendOpenAI apiKey (baseURL config) ;;
          SdkVideos openai (VideosRemix sourceVideoId prompt) guarded
      end
  | Backend =>
      response <- fetch {| url := js "/api/videos/" ++ sourceVideoId ++ js "/remix";
                           method := js "POST";
                           headers := [(js "Content-Type", js "application/json")];
                           body := JsonBody (json_members
                                     [(js "prompt", VString prompt);
                                      (js "passwordHash",
                                       opt_value (clientPasswordHash config))]) |} ;;
      if negb (ok response) then
        result <- await (json response) ;;
        match get_prop result (js "error") with
        | None => Throw TypeError
        | Some error =>
            Throw (NewError (or_else error
                     (VString (js "API request failed with status "
                               ++ decimal (status response)))))
        end
      else await (json response)
  end.

Definition retrieveVideo (config : ServiceConfig) (videoId : jsstring)
  : Eff JsValue :=
  match mode config with
  | Frontend =>
      match present (clientApiKey config) with
      | None => Throw api_key_required
      | Some apiKey =>
          openai <- createFrontendOpenAI apiKey (baseURL config) ;;
          SdkVideos openai (VideosRetrieve videoId) guarded
      end
  | Backend =>
      response <- fetch {| url := js "/api/videos/" ++ videoId;
                           method := js "GET";
                           headers := hash_headers (clientPasswordHash config);
                           body := NoBody |} ;;
      if negb (ok response) then
        Throw (NewError (VString (js "Failed to fetch job status: "
                                  ++ statusText response)))
      else await (json response)
  end.

Definition deleteVideo (config : ServiceConfig) (videoId : jsstring)
  : Eff unit :=
  match mode config with
  | Frontend =>
      match present (clientApiKey config) with
      | None => Throw api_key_required
      | Some apiKey =>
          openai <- createFrontendOpenAI apiKey (baseURL config) ;;
          SdkVideos openai (VideosDelete videoId)
            (fun outcome => _ <- guarded outcome ;; Ret tt)
      end
  | Backend =>
      response <- fetch {| url := js "/api/videos/" ++ videoId;
                           method := js "DELETE";
                           headers := hash_headers (clientPasswordHash config);
                           body := NoBody |} ;;
      if negb (ok response) then
        result <- await (json response) ;;
        match get_prop result (js "error") with
        | None => Throw TypeError
        | Some error =>
            Throw (NewError (or_else error (VString (js "Failed to delete video"))))
        end
      else Ret tt
  end.

(** The [variant] parameter defaults to ['video'] when the argument is
    missing ([None]). *)
Definition downloadContent (config : ServiceConfig) (videoId : jsstring)
                           (variant_arg : option Variant) : Eff Blob :=
  let variant := match variant_arg with Some v => v | None => Video end in
  match mode config with
  | Frontend =>
      match present (clientApiKey config) with
      | None => Throw api_key_required
      | Some apiKey =>
          openai <- createFrontendOpenAI apiKey (baseURL config) ;;
          SdkDownloadContent openai videoId variant
            (fun outcome =>
               content <- guarded outcome ;;
               guarded (content_blob content))
      end
  | Backend =>
      let url := js "/api/videos/" ++ videoId ++ js "/content?variant="
                 ++ variant_text variant in
      fullUrl <- match present (clientPasswordHash config) with
                 | Some h =>
                     match encodeURIComponent h with
                     | Some encoded => Ret (url ++ js "&password-hash=" ++ encoded)
                     | None => Throw URIError
                     end
                 | None => Ret url
                 end ;;
      response <- fetch {| url := fullUrl;
                           method := js "GET";
                           headers := hash_headers (clientPasswordHash config);
                           body := NoBody |} ;;
      if negb (ok response) then
        Throw (NewError (VString (js "Failed to download " ++ variant_text variant
                                  ++ js ": " ++ statusText response)))
      else await (blob response)
  end.

(** *** The five operations behind one entry point *)

Inductive Call :=
| Create (params : CreateParams)
| Remix (sourceVideoId prompt : jsstring)
| Retrieve (videoId : jsstring)
| Delete (videoId : jsstring)
| Download (videoId : jsstring) (variant : option Variant).

(** What a call resolves to: a job, nothing, or a blob. *)
Inductive Outcome :=
| Job (video : JsValue)
| Deleted
| Media (content : Blob).

Definition perform (config : ServiceConfig) (c : Call) : Eff Outcome :=
  match c with
  | Create params => video <- createVideo config params ;; Ret (Job video)
  | Remix sourceVideoId prompt =>
      video <- remixVideo config sourceVideoId prompt ;; Ret (Job video)
  | Retrieve videoId => video <- retrieveVideo config videoId ;; Ret (Job video)
  | Delete videoId => _ <- deleteVideo config videoId ;; Ret Deleted
  | Download videoId variant =>
      content <- downloadContent config videoId variant ;; Ret (Media content)
  end.

End VideoService.

(** ** Specification-side notions *)

Module Spec.
Import Js Net VideoService.

(** A decimal digit, as a character. *)
Definition decimal_digit (c : code_unit) : Prop := In c (js "0123456789").

(** [<digits>x<digits>]: two non-empty runs of decimal digits around one
    lower-case x, and nothing else. *)
Definition size_format (s : jsstring) : Prop :=
  exists w h : jsstring,
    s = w ++ js "x" ++ h /\ w <> [] /\ h <> []
    /\ Forall decimal_digit w /\ Forall decimal_digit h.

(** The language of a regular expression. *)
Inductive matches : regex -> jsstring -> Prop :=
| MEmpty : matches REmpty []
| MClass p c : p c = true -> matches (RClass p) [c]
| MSeq r1 r2 s1 s2 :
    matches r1 s1 -> matches r2 s2 -> matches (RSeq r1 r2) (s1 ++ s2)
| MAltL r1 r2 s : matches r1 s -> matches (RAlt r1 r2) s
| MAltR r1 r2 s : matches r2 s -> matches (RAlt r1 r2) s
| MStarNil r : matches (RStar r) []
| MStarApp r s1 s2 :
    matches r s1 -> matches (RStar r) s2 -> matches (RStar r) (s1 ++ s2).

(** The value thrown for a rejected duration. *)
Definition duration_message (value : NumberOrString) : Exn :=
  NewError (VString (js "Invalid duration: " ++ toString value
                     ++ js ". Duration must be a positive number.")).

(** The value thrown for a rejected size. *)
Definition size_message (value : jsstring) : Exn :=
  NewError (VString (js "Invalid video size format: " ++ value
                     ++ js ". Must be in format WIDTHxHEIGHT (e.g., 1280x720)")).

(** The error input validation raises for a creation request, if any:
    the duration is checked before the size. *)
Definition validation (params : CreateParams) : option Exn :=
  match normalizeSeconds (seconds params) with
  | inl e => Some e
  | inr _ =>
      match normalizeSize (size params) with
      | inl e => Some e
      | inr _ => None
      end
  end.

(** A thrown value that exposes a numeric status of 401 or 403, or the
    code "invalid_api_key". *)
Definition exposes_invalid_credential (thrown : JsValue) : Prop :=
  exists props,
    (thrown = VObject props \/ thrown = VError props)
    /\ (lookup (js "status") props = VNumber (NumInt 401)
        \/ lookup (js "status") props = VNumber (NumInt 403)
        \/ lookup (js "code") props = VString (js "invalid_api_key")).

Definition has_header (name : jsstring) (req : Request) : Prop :=
  In name (map fst (headers req)).

Definition has_form_field (name : jsstring) (req : Request) : Prop :=
  match body req with
  | FormBody form => In name (map fst form)
  | _ => False
  end.

Definition default_variant (variant : option Variant) : Variant :=
  match variant with
  | Some v => v
  | None => Video
  end.

(** The operations whose backend failure path reads the JSON body. *)
Definition reads_error_body (c : Call) : bool :=
  match c with
  | Create _ | Remix _ _ | Delete _ => true
  | Retrieve _ | Download _ _ => false
  end.

(** The durations whose string form the model prints as JavaScript does:
    every string, and the numbers that are integers a double holds
    exactly, NaN or infinite. *)
Definition printable (value : NumberOrString) : Prop :=
  match value with
  | OfNumber (NumInt z) => (Z.abs z <= 9007199254740991)%Z
  | _ => True
  end.

(** A call whose duration, if it has one, is printable. *)
Definition covered (call : Call) : Prop :=
  match call with
  | Create params => printable (seconds params)
  | _ => True
  end.

(** A call that input validation lets through (only a creation is
    validated). *)
Definition passes_validation (call : Call) : Prop :=
  match call with
  | Create params => validation params = None
  | _ => True
  end.

(** What a call asks of the provider's client. *)
Inductive ProviderCall :=
| AskVideos (req : SdkRequest)
| AskContent (videoId : jsstring) (variant : Variant).

(** The provider call of each operation: the creation parameters are the
    caller's, with the duration in string form; a download asks for the
    given variant, or for the video. *)
Definition provider_call (call : Call) : ProviderCall :=
  match call with
  | Create params =>
      AskVideos (VideosCreate {| vc_model := model params;
                                 vc_prompt := prompt params;
                                 vc_size := size params;
                                 vc_seconds := toString (seconds params);
                                 vc_input_reference := input_reference params |})
  | Remix sourceVideoId prompt => AskVideos (VideosRemix sourceVideoId prompt)
  | Retrieve videoId => AskVideos (VideosRetrieve videoId)
  | Delete videoId => AskVideos (VideosDelete videoId)
  | Download videoId variant => AskContent videoId (default_variant variant)
  end.

(** That call, as made on the client [c]. *)
Definition provider_event (c : Client) (call : Call) : Event :=
  match provider_call call with
  | AskVideos req => EvSdkVideos c req
  | AskContent videoId variant => EvSdkDownloadContent c videoId variant
  end.

(** The provider fails the call with [thrown]: the call on the client
    [c] rejects with it or, for a download, the reading of the content
    it resolved to does. *)
Definition provider_throws (env : Env) (c : Client) (call : Call)
                           (thrown : JsValue) : Prop :=
  match provider_call call with
  | AskVideos req => env_videos env c req = inl thrown
  | AskContent videoId variant =>
      env_download env c videoId variant = inl thrown
      \/ exists content,
           env_download env c videoId variant = inr content
           /\ content_blob content = inl thrown
  end.

(** The HTTP request of each operation under a configuration: path,
    method, and the password hash in the channel of the operation.  A
    download whose configured hash cannot be URI-encoded has none. *)
Definition backend_request (config : ServiceConfig) (call : Call)
  : option Request :=
  let hash := present (clientPasswordHash config) in
  let hash_header :=
    match hash with
    | Some h => [(js "x-password-hash", h)]
    | None => []
    end in
  match call with
  | Create params =>
      Some {| url := js "/api/videos"; method := js "POST"; headers := [];
              body := FormBody
                (match hash with
                 | Some h => [(js "passwordHash", FormString h)]
                 | None => []
                 end
                 ++ [(js "model", FormString (model params));
                     (js "prompt", FormString (prompt params));
                     (js "size", FormString (size params));
                     (js "seconds", FormString (toString (seconds params)))]
                 ++ match input_reference params with
                    | Some f => [(js "input_reference", FormFile f)]
                    | None => []
                    end) |}
  | Remix sourceVideoId prompt =>
      Some {| url := js "/api/videos/" ++ sourceVideoId ++ js "/remix";
              method := js "POST";
              headers := [(js "Content-Type", js "application/json")];
              body := JsonBody
                ((js "prompt", VString prompt)
                 :: match clientPasswordHash config with
                    | Undefined => []
                    | Null => [(js "passwordHash", VNull)]
                    | Str s => [(js "passwordHash", VString s)]
                    end) |}
  | Retrieve videoId =>
      Some {| url := js "/api/videos/" ++ videoId; method := js "GET";
              headers := hash_header; body := NoBody |}
  | Delete videoId =>
      Some {| url := js "/api/videos/" ++ videoId; method := js "DELETE";
              headers := hash_header; body := NoBody |}
  | Download videoId variant =>
      let path := js "/api/videos/" ++ videoId ++ js "/content?variant="
                  ++ variant_text (default_variant variant) in
      match hash with
      | None => Some {| url := path; method := js "GET"; headers := [];
                        body := NoBody |}
      | Some h =>
          match encodeURIComponent h with
          | Some encoded =>
              Some {| url := path ++ js "&password-hash=" ++ encoded;
                      method := js "GET";
                      headers := [(js "x-password-hash", h)];
                      body := NoBody |}
          | None => None
          end
      end
  end.

(** The two transports return equivalent underlying data for a call:
    what the provider's client resolves the call to is what the backend
    serves, with a 2xx status, in answer to the request of that call (as
    JSON for a job, as the blob for a download).  Nothing is asked of
    the answers to other calls or to other requests. *)
Definition equivalent_answers (env : Env) (cfgF cfgB : ServiceConfig)
                              (call : Call) : Prop :=
  forall apiKey c req r,
    present (clientApiKey cfgF) = Some apiKey ->
    env_client env apiKey (baseURL cfgF) = inr c ->
    backend_request cfgB call = Some req ->
    env_fetch env req = inr r -> ok r = true ->
    match provider_call call with
    | AskVideos sreq =>
        forall v v', env_videos env c sreq = inr v -> json r = inr v' -> v' = v
    | AskContent videoId variant =>
        forall content b b',
          env_download env c videoId variant = inr content ->
          content_blob content = inr b ->
          blob r = inr b' -> b' = b
    end.

End Spec.

(** ** Sample configurations, requests and environments *)

Module Examples.
Import Js Net VideoService.

Definition frontend_config : ServiceConfig :=
  {| mode := Frontend; clientApiKey := Str (js "sk-test");
     clientPasswordHash := Undefined; baseURL := None |}.

Definition frontend_no_key : ServiceConfig :=
  {| mode := Frontend; clientApiKey := Null;
     clientPasswordHash := Undefined; baseURL := None |}.

Definition backend_config : ServiceConfig :=
  {| mode := Backend; clientApiKey := Undefined;
     clientPasswordHash := Str (js "5e884898da28"); baseURL := None |}.

Definition backend_no_hash : ServiceConfig :=
  {| mode := Backend; clientApiKey := Undefined;
     clientPasswordHash := Null; baseURL := None |}.

Definition cat_params : CreateParams :=
  {| model := js "sora-2"; prompt := js "cat"; size := js "1280x720";
     seconds := OfString (js "8"); input_reference := None |}.

(** A size as typed into the free-text size field, not WIDTHxHEIGHT. *)
Definition bad_size_params : CreateParams :=
  {| model := js "sora-2"; prompt := js "cat"; size := js "720p";
     seconds := OfString (js "8"); input_reference := None |}.

(** The form fields of [cat_params]. *)
Definition four_fields : FormData :=
  [(js "model", FormString (js "sora-2"));
   (js "prompt", FormString (js "cat"));
   (js "size", FormString (js "1280x720"));
   (js "seconds", FormString (js "8"))].

Definition video_id : jsstring := js "video_123".

Definition job : JsValue :=
  VObject [(js "id", VString video_id); (js "status", VString (js "queued"))].

Definition media : Blob :=
  {| blob_type := js "video/mp4"; blob_bytes := [0; 0; 0; 24]%N |}.

(** Both transports up, and serving the same job and the same media. *)
Definition serving : Env :=
  {| env_client := fun _ _ => inr 0%N;
     env_videos := fun _ _ => inr job;
     env_download := fun _ _ _ => inr {| content_blob := inr media |};
     env_fetch := fun _ =>
       inr {| status := 200; statusText := js "OK";
              json := inr job; blob := inr media |} |}.

Definition unauthorized : JsValue :=
  VError [(js "status", VNumber (NumInt 401));
          (js "message", VString (js "Incorrect API key provided"))].

(** The provider rejects the key; the backend answers 429 with a JSON
    error body. *)
Definition rejecting : Env :=
  {| env_client := fun _ _ => inr 0%N;
     env_videos := fun _ _ => inl unauthorized;
     env_download := fun _ _ _ => inl unauthorized;
     env_fetch := fun _ =>
       inr {| status := 429; statusText := js "Too Many Requests";
              json := inr (VObject [(js "error", VString (js "quota exceeded"))]);
              blob := inl VUndefined |} |}.

(** The request a remix of [video_id] with the prompt "dog" sends under
    [backend_config]. *)
Definition remix_request : Request :=
  {| url := js "/api/videos/video_123/remix"; method := js "POST";
     headers := [(js "Content-Type", js "application/json")];
     body := JsonBody [(js "prompt", VString (js "dog"));
                       (js "passwordHash", VString (js "5e884898da28"))] |}.

(** The job with a given identifier. *)
Definition job_of (videoId : jsstring) : JsValue :=
  VObject [(js "id", VString videoId); (js "status", VString (js "queued"))].

(** Both transports up and serving each job under its identifier: the
    provider on retrieval, the backend at /api/videos/<id>. *)
Definition catalogue : Env :=
  {| env_client := fun _ _ => inr 0%N;
     env_videos := fun _ req =>
       match req with
       | VideosRetrieve videoId => inr (job_of videoId)
       | _ => inl VUndefined
       end;
     env_download := fun _ _ _ => inl VUndefined;
     env_fetch := fun req =>
       inr {| status := 200; statusText := js "OK";
              json := inr (job_of (skipn 12 (url req)));
              blob := inl VUndefined |} |}.

(** The SDK throws something that is not an Error. *)
Definition broken : Env :=
  {| env_client := fun _ _ => inr 0%N;
     env_videos := fun _ _ => inl (VString (js "socket closed"));
     env_download := fun _ _ _ => inl (VString (js "socket closed"));
     env_fetch := fun _ => inl VUndefined |}.

End Examples.

(** ** More built-ins: string tests, parseInt without radix, doubles *)

Module JsMore.
Import Js.

(** [s.startsWith(prefix)] *)
Fixpoint startsWith (prefix s : jsstring) : bool :=
  match prefix, s with
  | [], _ => true
  | p :: prefix', c :: s' => N.eqb p c && startsWith prefix' s'
  | _ :: _, [] => false
  end.

(** [list.includes(s)] on strings *)
Definition includes (list : list jsstring) (s : jsstring) : bool :=
  existsb (jsstring_eqb s) list.

(** [s.trim()]: white space and line terminators go from both ends. *)
Definition trim (s : jsstring) : jsstring :=
  rev (trim_start (rev (trim_start s))).

Definition is_hex_digit (c : code_unit) : bool :=
  is_digit c || in_range 65 70 c || in_range 97 102 c.

Definition hex_digit_value (c : code_unit) : N :=
  if is_digit c then (c - 48)%N
  else if in_range 65 70 c then (c - 55)%N
  else (c - 87)%N.

Fixpoint leading_hex_digits (s : jsstring) : jsstring :=
  match s with
  | c :: s' => if is_hex_digit c then c :: leading_hex_digits s' else []
  | [] => []
  end.

Definition hex_value (ds : jsstring) : N :=
  fold_left (fun acc c => (16 * acc + hex_digit_value c)%N) ds 0%N.

(** [parseInt(input)] with no radix: as with radix 10, except that a
    [0x] or [0X] after the sign switches to radix 16. *)
Definition parseInt_auto (input : jsstring) : JsNumber :=
  let (sign, rest) := split_sign (trim_start input) in
  let hex (digits : jsstring) :=
    match leading_hex_digits digits with
    | [] => NumNaN
    | ds => NumInt (sign * Z.of_N (hex_value ds))
    end in
  let dec :=
    match leading_digits rest with
    | [] => NumNaN
    | ds => NumInt (sign * Z.of_N (decimal_value ds))
    end in
  match rest with
  | 48%N :: c :: digits =>
      if (c =? 120)%N || (c =? 88)%N then hex digits else dec
  | _ => dec
  end.

(** *** Doubles

    IEEE 754 binary64 values with the operations of the standard
    library's [SpecFloat]: rounding is to nearest, ties to even. *)
Definition double := spec_float.

Definition prec : Z := 53.
Definition emax : Z := 1024.

(** The double nearest an integer. *)
Definition double_of_Z (z : Z) : double := binary_normalize prec emax z 0 false.

(** A parsed integer as a double (for 0 the sign of the zero is not kept:
    no operation below tells -0 from +0). *)
Definition double_of_number (n : JsNumber) : double :=
  match n with
  | NumInt z => double_of_Z z
  | NumNaN => S754_nan
  | NumInf negative => S754_infinity negative
  end.

(** The double a decimal literal denotes: the one nearest its value
    [num / den], which is the correctly rounded quotient. *)
Definition decimal_literal (num den : Z) : double :=
  SFdiv prec emax (double_of_Z num) (double_of_Z den).

(** [x * y] *)
Definition mul (x y : double) : double := SFmul prec emax x y.

(** [x / y] *)
Definition div (x y : double) : double := SFdiv prec emax x y.

(** The integer nearest [100 * m * 2^e], the larger one on a tie. *)
Definition nearest_hundredth (m : positive) (e : Z) : N :=
  match e with
  | Zneg k =>
      let d := (2 ^ Npos k)%N in
      ((2 * 100 * Npos m + d) / (2 * d))%N
  | _ => (100 * Npos m * 2 ^ Z.to_N e)%N
  end.

(** [10^21 <= m * 2^e], for a mantissa of at most 53 bits. *)
Definition at_least_1e21 (m : positive) (e : Z) : bool :=
  match e with
  | Zneg _ => false
  | _ => (10 ^ 21 <=? Npos m * 2 ^ Z.to_N e)%N
  end.

(** The digits of [n] with the decimal point before the last two, padded
    with zeros to three digits at least. *)
Definition fixed2_digits (n : N) : jsstring :=
  let m := decimal n in
  let m := repeat 48%N (3 - List.length m) ++ m in
  firstn (List.length m - 2) m ++ js "." ++ skipn (List.length m - 2) m.

(** [x.toFixed(2)]; [None] for |x| >= 10^21, where the result is the
    exponent notation of [x.toString()], which is not modelled. *)
Definition toFixed2 (x : double) : option jsstring :=
  match x with
  | S754_nan => Some (js "NaN")
  | S754_infinity false => Some (js "Infinity")
  | S754_infinity true => Some (js "-Infinity")
  | S754_zero _ => Some (js "0.00")
  | S754_finite negative m e =>
      if at_least_1e21 m e then None
      else Some ((if negative then js "-" else [])
                 ++ fixed2_digits (nearest_hundredth m e))
  end.

End JsMore.

(** ** The creation form (src/components/creation-form.tsx)

    The handlers of the component, as programs that read the browser and
    log the calls they make: state setters, alerts, object URLs. *)

Module CreationForm.
Import Js Net JsMore.

Record CreationFormData := {
  data_model : jsstring;
  data_prompt : jsstring;
  data_size : jsstring;
  data_seconds : jsstring;
  data_input_reference : option File
}.

(** The props and hook values the handlers close over. *)
Record CreationFormProps := {
  isLoading : bool;
  model : jsstring;
  prompt : jsstring;
  size : jsstring;
  seconds : jsstring;
  inputReference : option File;
  previewUrl : OptString;          (* string | null *)
  fileInputMounted : bool          (* fileInputRef.current is set *)
}.

(** What the browser answers: the object URL it issues for a file (a new
    one at each request, so the answer depends on how many were issued
    before), and whether an image (or a video's metadata) loads from a
    URL, with its width and height when it does. *)
Record Browser := {
  objectURL : nat -> File -> jsstring;
  imageLoad : jsstring -> option (N * N);
  videoLoad : jsstring -> option (N * N)
}.

Inductive UiEvent :=
| EvAlert (message : jsstring)
| EvSetSize (s : jsstring)
| EvSetInputReference (f : option File)
| EvSetPreviewUrl (u : OptString)
| EvCreateObjectURL (f : File)
| EvRevokeObjectURL (u : jsstring)
| EvPreventDefault
| EvClearFileInput                 (* fileInputRef.current.value = '' *)
| EvOnSubmit (data : CreationFormData).

(** What a handler leaves behind: the calls it made, in order, the
    number of object URLs issued so far, and its result. *)
Record Ran (A : Type) := {
  log : list UiEvent;
  issued : nat;
  value : A
}.

(** A handler, run in a browser that has issued some object URLs. *)
Definition Ui (A : Type) : Type := Browser -> nat -> Ran A.

Definition ret {A : Type} (a : A) : Ui A :=
  fun _ n => {| log := []; issued := n; value := a |}.

Definition bind {A B : Type} (m : Ui A) (f : A -> Ui B) : Ui B :=
  fun browser n =>
    let r1 := m browser n in
    let r2 := f (value r1) browser (issued r1) in
    {| log := log r1 ++ log r2; issued := issued r2; value := value r2 |}.

Definition emit (e : UiEvent) : Ui unit :=
  fun _ n => {| log := [e]; issued := n; value := tt |}.

Definition ask {A : Type} (f : Browser -> A) : Ui A :=
  fun browser n => {| log := []; issued := n; value := f browser |}.

Declare Scope ui_scope.
Delimit Scope ui_scope with ui.
Notation "x <- m ;; k" := (bind m (fun x => k))
  (at level 100, m at next level, right associativity) : ui_scope.
Notation "m ;; k" := (bind m (fun _ => k))
  (at level 100, right associativity) : ui_scope.
Local Open Scope ui_scope.

(** [URL.createObjectURL(file)] *)
Definition newObjectURL (file : File) : Ui jsstring :=
  fun browser n =>
    {| log := [EvCreateObjectURL file]; issued := S n;
       value := objectURL browser n file |}.

(** [file.size] *)
Definition file_size (file : File) : N := N.of_nat (List.length (file_bytes file)).

(** [${width}x${height}] *)
Definition dimensions_text (wh : N * N) : jsstring :=
  decimal (fst wh) ++ js "x" ++ decimal (snd wh).

(** The promise settles when the element loads or fails to load; on
    failure nothing is set and the object URL is left as it is. *)
Definition detectAndSetDimensions (file : File) : Ui unit :=
  if startsWith (js "image/") (file_type file) then
    src <- newObjectURL file ;;
    loaded <- ask (fun browser => imageLoad browser src) ;;
    match loaded with
    | Some wh => emit (EvSetSize (dimensions_text wh)) ;; emit (EvRevokeObjectURL src)
    | None => ret tt
    end
  else if startsWith (js "video/") (file_type file) then
    src <- newObjectURL file ;;
    loaded <- ask (fun browser => videoLoad browser src) ;;
    match loaded with
    | Some wh => emit (EvSetSize (dimensions_text wh)) ;; emit (EvRevokeObjectURL src)
    | None => ret tt
    end
  else ret tt.

Definition maxSizeBytes : N := 100 * 1024 * 1024.

Definition validTypes : list jsstring :=
  [js "image/jpeg"; js "image/png"; js "image/webp"; js "video/mp4"].

(** [(file.size / (1024 * 1024)).toFixed(2)]; the empty string stands for
    the exponent notation of sizes from 10^21 MB on. *)
Definition megabytes_text (file : File) : jsstring :=
  match toFixed2 (div (double_of_Z (Z.of_N (file_size file)))
                      (double_of_Z (1024 * 1024))) with
  | Some text => text
  | None => []
  end.

Definition validateAndSetFile (file : File) : Ui bool :=
  if (maxSizeBytes <? file_size file)%N then
    emit (EvAlert (js "File size exceeds 100 MB limit. Selected file is "
                   ++ megabytes_text file ++ js " MB.")) ;;
    ret false
  else if negb (includes validTypes (file_type file)) then
    emit (EvAlert (js "Invalid file type. Please use JPEG, PNG, WebP, or MP4 files.")) ;;
    ret false
  else
    detectAndSetDimensions file ;;
    emit (EvSetInputReference (Some file)) ;;
    url <- newObjectURL file ;;
    emit (EvSetPreviewUrl (Str url)) ;;
    ret true.

(** The cleanup of the preview effect. *)
Definition previewCleanup (props : CreationFormProps) : Ui unit :=
  match present (previewUrl props) with
  | Some url => emit (EvRevokeObjectURL url)
  | None => ret tt
  end.

(** [files] is [event.target.files], empty when it is missing. *)
Definition handleInputReferenceChange (props : CreationFormProps)
                                      (files : list File) : Ui unit :=
  match files with
  | file :: _ =>
      isValid <- validateAndSetFile file ;;
      if negb isValid && fileInputMounted props then emit EvClearFileInput else ret tt
  | [] => ret tt
  end.

Record ClipboardItem := { item_type : jsstring; getAsFile : option File }.

(** The loop of [handlePaste], which stops at the first image or video. *)
Fixpoint pasteItems (items : list ClipboardItem) : Ui unit :=
  match items with
  | [] => ret tt
  | item :: rest =>
      if startsWith (js "image/") (item_type item)
         || startsWith (js "video/") (item_type item)
      then
        emit EvPreventDefault ;;
        match getAsFile item with
        | Some file => _ <- validateAndSetFile file ;; ret tt
        | None => ret tt
        end
      else pasteItems rest
  end.

(** [items] is [event.clipboardData?.items], [None] when it is missing. *)
Definition handlePaste (items : option (list ClipboardItem)) : Ui unit :=
  match items with
  | None => ret tt
  | Some items => pasteItems items
  end.

Definition handleRemoveFile (props : CreationFormProps) : Ui unit :=
  emit (EvSetInputReference None) ;;
  match present (previewUrl props) with
  | Some url => emit (EvRevokeObjectURL url) ;; emit (EvSetPreviewUrl Null)
  | None => ret tt
  end ;;
  if fileInputMounted props then emit EvClearFileInput else ret tt.

Definition handleSubmit (props : CreationFormProps) : Ui unit :=
  emit EvPreventDefault ;;
  emit (EvOnSubmit {| data_model := model props;
                      data_prompt := prompt props;
                      data_size := size props;
                      data_seconds := seconds props;
                      data_input_reference := inputReference props |}).

(** [disabled={isLoading || !prompt.trim()}] of the submit button *)
Definition submitDisabled (props : CreationFormProps) : bool :=
  isLoading props || negb (truthy (VString (trim (prompt props)))).

Definition calculateEstimatedCost (props : CreationFormProps) : double :=
  let duration := double_of_number (parseInt_auto (seconds props)) in
  let pricePerSecond :=
    if jsstring_eqb (model props) (js "sora-2") then decimal_literal 10 100
    else if jsstring_eqb (model props) (js "sora-2-pro") then
      if jsstring_eqb (size props) (js "1024x1792")
         || jsstring_eqb (size props) (js "1792x1024")
      then decimal_literal 50 100
      else decimal_literal 30 100
    else double_of_Z 0 in
  mul duration pricePerSecond.

(** [estimatedCost.toFixed(2)], as shown after the dollar sign. *)
Definition estimatedCostText (props : CreationFormProps) : option jsstring :=
  toFixed2 (calculateEstimatedCost props).

End CreationForm.

(** ** Further specification-side notions *)

Module SpecMore.
Import Js Net JsMore Spec.

Definition starts_with_digit (s : jsstring) : bool :=
  match s with
  | c :: _ => is_digit c
  | [] => false
  end.

(** Optional white space, an optional plus sign, a run of decimal digits
    of positive value, then any text that does not go on with a digit. *)
Definition lenient_numeral (s : jsstring) : Prop :=
  exists ws sign ds tail,
    s = ws ++ sign ++ ds ++ tail
    /\ forallb is_whitespace ws = true
    /\ (sign = [] \/ sign = js "+")
    /\ ds <> [] /\ forallb is_digit ds = true
    /\ starts_with_digit tail = false
    /\ (0 < decimal_value ds)%N.

(** An integer a double holds exactly. *)
Definition safe_integer (n : JsNumber) : Prop :=
  match n with
  | NumInt z => (Z.abs z <= 9007199254740991)%Z
  | _ => True
  end.

(** A creation request whose size and duration pass validation. *)
Definition valid_request (params : VideoService.CreateParams) : Prop :=
  size_format (VideoService.size params)
  /\ exists z,
       parseInt (VideoService.toString (VideoService.seconds params)) = NumInt z
       /\ (0 < z)%Z.

(** A character of an encoded URI component: unreserved, or the percent
    sign of an escape. *)
Definition is_component_char (c : code_unit) : bool :=
  is_uri_unreserved c || (c =? 37)%N.

(** Every element is a 16-bit code unit. *)
Definition well_formed_units (s : jsstring) : Prop :=
  Forall (fun c => (c < 65536)%N) s.

(** A file the form accepts as input reference. *)
Definition acceptable (file : File) : Prop :=
  (CreationForm.file_size file <= 104857600)%N
  /\ In (file_type file) CreationForm.validTypes.


(** A clipboard item that is an image or a video. *)
Definition is_media (item : CreationForm.ClipboardItem) : bool :=
  startsWith (js "image/") (CreationForm.item_type item)
  || startsWith (js "video/") (CreationForm.item_type item).

(** The price list, in cents per second. *)
Definition price_cents (props : CreationForm.CreationFormProps) : N :=
  if jsstring_eqb (CreationForm.model props) (js "sora-2") then 10
  else if jsstring_eqb (CreationForm.model props) (js "sora-2-pro") then
    if jsstring_eqb (CreationForm.size props) (js "1024x1792")
       || jsstring_eqb (CreationForm.size props) (js "1792x1024")
    then 50 else 30
  else 0.

(** An amount in cents, written in dollars with two decimals. *)
Definition cents_text (c : N) : jsstring :=
  decimal (c / 100) ++ js "." ++ [digit_unit ((c / 10) mod 10); digit_unit (c mod 10)].

(** The displayed product of [d] seconds and [price] is [d * cents]. *)
Definition cost_ok (price : double) (cents : N) (d : N) : bool :=
  match toFixed2 (mul (double_of_Z (Z.of_N d)) price) with
  | Some text => jsstring_eqb text (cents_text (d * cents))
  | None => false
  end.

(** The whole durations up to one hour. *)
Definition durations : list N := map N.of_nat (seq 0 3601).

End SpecMore.

(** ** More samples *)

Module ExamplesMore.
Import Js Net JsMore.

(** A backend that answers every request with [r]. *)
Definition answering (r : Response) : Env :=
  {| env_client := fun _ _ => inr 0%N;
     env_videos := fun _ _ => inr Examples.job;
     env_download := fun _ _ _ => inr {| content_blob := inr Examples.media |};
     env_fetch := fun _ => inr r |}.

Definition not_json : JsValue :=
  VError [(js "name", VString (js "SyntaxError"))].

(** 500 with a JSON body that has no error field. *)
Definition plain_failure : Response :=
  {| status := 500; statusText := js "Internal Server Error";
     json := inr (VObject [(js "detail", VString (js "boom"))]);
     blob := inl VUndefined |}.

(** 502 with a body that is not JSON. *)
Definition gateway_failure : Response :=
  {| status := 502; statusText := js "Bad Gateway";
     json := inl not_json; blob := inl VUndefined |}.

(** 500 with the JSON body null. *)
Definition null_failure : Response :=
  {| status := 500; statusText := js "Internal Server Error";
     json := inr VNull; blob := inl VUndefined |}.

(** 204 with no body to read. *)
Definition no_content : Response :=
  {| status := 204; statusText := js "No Content";
     json := inl not_json; blob := inl VUndefined |}.

Definition odd_hash_config : VideoService.ServiceConfig :=
  {| VideoService.mode := VideoService.Backend;
     VideoService.clientApiKey := Undefined;
     VideoService.clientPasswordHash := Str (js "a&b=c");
     VideoService.baseURL := None |}.

Definition photo : File :=
  {| file_name := js "frame.png"; file_type := js "image/png";
     file_bytes := [137; 80; 78; 71]%N |}.

Definition notes : File :=
  {| file_name := js "notes.txt"; file_type := js "text/plain";
     file_bytes := [104; 105]%N |}.

(** Object URLs are numbered; every image is 1280 by 720 and no video
    loads. *)
Definition browser : CreationForm.Browser :=
  {| CreationForm.objectURL := fun n _ => js "blob:" ++ decimal (N.of_nat n);
     CreationForm.imageLoad := fun _ => Some (1280, 720)%N;
     CreationForm.videoLoad := fun _ => None |}.

Definition form : CreationForm.CreationFormProps :=
  {| CreationForm.isLoading := false;
     CreationForm.model := js "sora-2-pro";
     CreationForm.prompt := js "cat";
     CreationForm.size := js "1792x1024";
     CreationForm.seconds := decimal 12;
     CreationForm.inputReference := None;
     CreationForm.previewUrl := Null;
     CreationForm.fileInputMounted := true |}.

Definition clipboard : list CreationForm.ClipboardItem :=
  [ {| CreationForm.item_type := js "text/plain"; CreationForm.getAsFile := None |};
    {| CreationForm.item_type := js "image/png"; CreationForm.getAsFile := Some photo |};
    {| CreationForm.item_type := js "video/mp4"; CreationForm.getAsFile := None |} ].

End ExamplesMore.

Unset Implicit Arguments.

(** ** Facts about the built-ins *)

Module JsFacts.
Import Js Spec.

Lemma jsstring_eqb_eq (a b : jsstring) : jsstring_eqb a b = true <-> a = b.
Proof.
  revert b; induction a as [|x a IH]; intros [|y b]; simpl; split;
    try congruence; try reflexivity.
  - intros H. apply andb_true_iff in H as [Hx Hab].
    apply N.eqb_eq in Hx. apply IH in Hab. congruence.
  - intros H. injection H as -> ->. apply andb_true_iff. split.
    + apply N.eqb_refl.
    + apply IH. reflexivity.
Qed.

(** *** Decimal numerals *)

Lemma decimal_value_snoc ds c :
  decimal_value (ds ++ [c]) = (10 * decimal_value ds + digit_value c)%N.
Proof. unfold decimal_value. rewrite fold_left_app. reflexivity. Qed.

Lemma digits_fuel_suffix fuel : forall n suffix,
  digits_fuel fuel n suffix = digits_fuel fuel n [] ++ suffix.
Proof.
  induction fuel as [|fuel IH]; intros n suffix; simpl.
  - reflexivity.
  - destruct (n / 10 =? 0)%N.
    + reflexivity.
    + rewrite IH. rewrite (IH _ [_]). rewrite <- app_assoc. reflexivity.
Qed.

Lemma digit_value_unit d : digit_value (digit_unit d) = d.
Proof. unfold digit_value, digit_unit. lia. Qed.

Lemma is_digit_bounds c : is_digit c = true <-> (48 <= c <= 57)%N.
Proof.
  unfold is_digit. rewrite andb_true_iff, !N.leb_le. reflexivity.
Qed.

Lemma is_digit_unit d : (d < 10)%N -> is_digit (digit_unit d) = true.
Proof. intros H. apply is_digit_bounds. unfold digit_unit. lia. Qed.

Lemma digits_fuel_value fuel : forall n,
  (n < 10 ^ N.of_nat fuel)%N -> decimal_value (digits_fuel fuel n []) = n.
Proof.
  induction fuel as [|fuel IH]; intros n Hn.
  - simpl in Hn. simpl. unfold decimal_value. simpl. lia.
  - rewrite Nat2N.inj_succ, N.pow_succ_r' in Hn. simpl.
    destruct (N.eqb_spec (n / 10) 0) as [Hq|Hq].
    + unfold decimal_value. simpl. rewrite digit_value_unit.
      apply N.div_small_iff in Hq; [|lia]. rewrite N.mod_small by exact Hq. lia.
    + rewrite digits_fuel_suffix, decimal_value_snoc, digit_value_unit.
      rewrite IH.
      * symmetry. apply N.div_mod. lia.
      * apply N.Div0.div_lt_upper_bound; lia.
Qed.

Lemma digits_fuel_digits fuel : forall n suffix,
  forallb is_digit suffix = true ->
  forallb is_digit (digits_fuel fuel n suffix) = true.
Proof.
  induction fuel as [|fuel IH]; intros n suffix Hs; simpl.
  - exact Hs.
  - assert (Hd : forallb is_digit (digit_unit (n mod 10) :: suffix) = true).
    { simpl. rewrite Hs, is_digit_unit; [reflexivity|].
      apply N.mod_lt. lia. }
    destruct (n / 10 =? 0)%N; [exact Hd | apply IH; exact Hd].
Qed.

Lemma digits_fuel_nonempty fuel : forall n suffix,
  suffix <> [] -> digits_fuel fuel n suffix <> [].
Proof.
  induction fuel as [|fuel IH]; intros n suffix Hs; simpl.
  - exact Hs.
  - destruct (n / 10 =? 0)%N; [discriminate | apply IH; discriminate].
Qed.

Lemma decimal_fuel_enough n : (n < 10 ^ N.of_nat (S (N.to_nat (N.log2 n))))%N.
Proof.
  rewrite Nat2N.inj_succ, N2Nat.id.
  destruct (N.eq_dec n 0) as [->|Hn].
  - simpl. lia.
  - apply N.lt_le_trans with (2 ^ N.succ (N.log2 n))%N.
    + apply N.log2_spec. lia.
    + apply N.pow_le_mono_l. lia.
Qed.

Lemma decimal_value_decimal n : decimal_value (decimal n) = n.
Proof. apply digits_fuel_value, decimal_fuel_enough. Qed.

Lemma decimal_digits n : forallb is_digit (decimal n) = true.
Proof. apply digits_fuel_digits. reflexivity. Qed.

Lemma decimal_nonempty n : decimal n <> [].
Proof.
  unfold decimal. simpl.
  destruct (n / 10 =? 0)%N; [discriminate | apply digits_fuel_nonempty; discriminate].
Qed.

(** *** parseInt *)

Lemma digit_not_whitespace c : is_digit c = true -> is_whitespace c = false.
Proof.
  intros H. apply is_digit_bounds in H. unfold is_whitespace.
  repeat (apply orb_false_iff; split);
    try (apply N.eqb_neq; lia).
  apply andb_false_iff. left. apply N.leb_gt. lia.
Qed.

Lemma leading_digits_all s : forallb is_digit s = true -> leading_digits s = s.
Proof.
  induction s as [|c s IH]; simpl; [reflexivity|].
  intros H. apply andb_true_iff in H as [Hc Hs].
  rewrite Hc, IH by exact Hs. reflexivity.
Qed.

(** A numeral that starts with a digit is read back in full. *)
Lemma parseInt_digits s :
  s <> [] -> forallb is_digit s = true ->
  parseInt s = NumInt (Z.of_N (decimal_value s)).
Proof.
  intros Hne Hd. destruct s as [|c s]; [contradiction|].
  pose proof Hd as Hds. simpl in Hd. apply andb_true_iff in Hd as [Hc _].
  unfold parseInt. simpl trim_start. rewrite (digit_not_whitespace _ Hc).
  apply is_digit_bounds in Hc. unfold split_sign.
  destruct (N.eqb_spec c 45) as [E|_]; [lia|].
  destruct (N.eqb_spec c 43) as [E|_]; [lia|].
  rewrite (leading_digits_all _ Hds).
  f_equal. destruct (decimal_value (c :: s)); reflexivity.
Qed.

Lemma parseInt_decimal n : parseInt (decimal n) = NumInt (Z.of_N n).
Proof.
  rewrite parseInt_digits.
  - rewrite decimal_value_decimal. reflexivity.
  - apply decimal_nonempty.
  - apply decimal_digits.
Qed.

(** [parseInt] yields NaN or an integer, never an infinity. *)
Lemma parseInt_cases s :
  parseInt s = NumNaN \/ exists z, parseInt s = NumInt z.
Proof.
  unfold parseInt. destruct (split_sign (trim_start s)) as [sign rest].
  destruct (leading_digits rest); [left | right; eexists]; reflexivity.
Qed.

(** *** The derivative matcher decides the language *)

Lemma matches_seq_inv r1 r2 s :
  matches (RSeq r1 r2) s ->
  exists s1 s2, s = s1 ++ s2 /\ matches r1 s1 /\ matches r2 s2.
Proof. inversion 1; subst. eauto. Qed.

Lemma matches_alt_inv r1 r2 s :
  matches (RAlt r1 r2) s -> matches r1 s \/ matches r2 s.
Proof. inversion 1; subst; auto. Qed.

Lemma matches_class_inv p s :
  matches (RClass p) s -> exists c, s = [c] /\ p c = true.
Proof. inversion 1; subst. eauto. Qed.

Lemma matches_empty_inv s : matches REmpty s -> s = [].
Proof. inversion 1; reflexivity. Qed.

Lemma nullable_matches r : nullable r = true <-> matches r [].
Proof.
  induction r as [| |p|r1 IH1 r2 IH2|r1 IH1 r2 IH2|r IH]; simpl.
  - split; [discriminate | inversion 1].
  - split; [constructor | reflexivity].
  - split; [discriminate | inversion 1].
  - rewrite andb_true_iff, IH1, IH2. split.
    + intros [H1 H2]. exact (MSeq H1 H2).
    + intros H. apply matches_seq_inv in H as (s1 & s2 & E & H1 & H2).
      symmetry in E. apply app_eq_nil in E as [-> ->]. split; assumption.
  - rewrite orb_true_iff, IH1, IH2. split.
    + intros [H|H]; [apply MAltL | apply MAltR]; exact H.
    + apply matches_alt_inv.
  - split; [constructor | reflexivity].
Qed.

(** A starred match of a non-empty string starts with a non-empty match
    of the body. *)
Lemma matches_star_cons r c s :
  matches (RStar r) (c :: s) ->
  exists s1 s2, s = s1 ++ s2 /\ matches r (c :: s1) /\ matches (RStar r) s2.
Proof.
  intros H. remember (RStar r) as r' eqn:Er. remember (c :: s) as t eqn:Et.
  revert r c s Er Et.
  induction H as [|p0 c0 Hp|q1 q2 t1 t2 _ _ _ _|q1 q2 t0 _ _|q1 q2 t0 _ _|q
                  |r0 s1 s2 H1 _ H2 IH2]; intros r c s Er Et;
    try discriminate.
  injection Er as ->. destruct s1 as [|c1 s1]; simpl in Et.
  - apply (IH2 r c s eq_refl Et).
  - injection Et as -> <-. exists s1, s2. repeat split; assumption.
Qed.

Lemma deriv_matches r : forall c s, matches (deriv c r) s <-> matches r (c :: s).
Proof.
  induction r as [| |p|r1 IH1 r2 IH2|r1 IH1 r2 IH2|r IH]; intros c s; simpl.
  - split; inversion 1.
  - split; inversion 1.
  - destruct (p c) eqn:Hp; split; intros H.
    + apply matches_empty_inv in H as ->. apply (MClass p c Hp).
    + apply matches_class_inv in H as (c' & E & _). injection E as _ Es. subst s. constructor.
    + inversion H.
    + apply matches_class_inv in H as (c' & E & Hc). injection E as Ec _. congruence.
  - assert (Hl : forall t, matches (RSeq (deriv c r1) r2) t ->
                           matches (RSeq r1 r2) (c :: t)).
    { intros t H. apply matches_seq_inv in H as (s1 & s2 & -> & H1 & H2).
      apply IH1 in H1. exact (MSeq H1 H2). }
    assert (Hr : forall s1 s2, s1 ++ s2 = c :: s -> matches r1 s1 -> matches r2 s2 ->
                   (s1 = [] /\ matches r2 (c :: s))
                   \/ matches (RSeq (deriv c r1) r2) s).
    { intros s1 s2 E H1 H2. destruct s1 as [|c1 s1]; simpl in E.
      - left. subst s2. split; [reflexivity | assumption].
      - right. injection E as -> <-. apply MSeq; [apply IH1|]; assumption. }
    destruct (nullable r1) eqn:Hn; split; intros H.
    + apply matches_alt_inv in H as [H|H].
      * apply Hl, H.
      * apply IH2 in H. apply nullable_matches in Hn.
        exact (MSeq (s1 := []) Hn H).
    + apply matches_seq_inv in H as (s1 & s2 & E & H1 & H2). symmetry in E.
      destruct (Hr s1 s2 E H1 H2) as [[_ H]|H].
      * apply MAltR, IH2, H.
      * apply MAltL, H.
    + apply Hl, H.
    + apply matches_seq_inv in H as (s1 & s2 & E & H1 & H2). symmetry in E.
      destruct (Hr s1 s2 E H1 H2) as [[-> _]|H].
      * apply nullable_matches in H1. congruence.
      * exact H.
  - split; intros H.
    + apply matches_alt_inv in H as [H|H]; [apply MAltL, IH1 | apply MAltR, IH2]; exact H.
    + apply matches_alt_inv in H as [H|H]; [apply MAltL, IH1 | apply MAltR, IH2]; exact H.
  - split; intros H.
    + apply matches_seq_inv in H as (s1 & s2 & -> & H1 & H2).
      apply IH in H1. exact (MStarApp H1 H2).
    + apply matches_star_cons in H as (s1 & s2 & -> & H1 & H2).
      apply MSeq; [apply IH|]; assumption.
Qed.

Theorem regex_test_matches r s : regex_test r s = true <-> matches r s.
Proof.
  unfold regex_test. revert r.
  induction s as [|c s IH]; intros r; simpl.
  - apply nullable_matches.
  - rewrite IH. apply deriv_matches.
Qed.

(** *** The languages of [\d*] and [\d+] *)

Lemma is_digit_decimal_digit c : is_digit c = true <-> decimal_digit c.
Proof.
  rewrite is_digit_bounds. unfold decimal_digit. simpl. split.
  - intros H.
    assert (E : (c = 48 \/ c = 49 \/ c = 50 \/ c = 51 \/ c = 52 \/ c = 53
                 \/ c = 54 \/ c = 55 \/ c = 56 \/ c = 57)%N) by lia.
    intuition auto 15.
  - intros H. intuition lia.
Qed.

Lemma matches_star_digits s :
  matches (RStar RDigit) s <-> Forall decimal_digit s.
Proof.
  split.
  - intros H. remember (RStar RDigit) as r eqn:Er.
    induction H as [|p0 c0 Hp|q1 q2 t1 t2 _ _ _ _|q1 q2 t0 _ _|q1 q2 t0 _ _|q
                    |r0 s1 s2 H1 _ H2 IH2]; try discriminate.
    + constructor.
    + injection Er as ->. apply matches_class_inv in H1 as (c & -> & Hc).
      simpl. constructor; [apply is_digit_decimal_digit, Hc | apply IH2; reflexivity].
  - induction 1 as [|c s Hc _ IH].
    + constructor.
    + apply (MStarApp (s1 := [c])); [|exact IH].
      apply MClass, is_digit_decimal_digit, Hc.
Qed.

Lemma matches_plus_digits s :
  matches (RPlus RDigit) s <-> s <> [] /\ Forall decimal_digit s.
Proof.
  unfold RPlus. split.
  - intros H. apply matches_seq_inv in H as (s1 & s2 & -> & H1 & H2).
    apply matches_class_inv in H1 as (c & -> & Hc). split; [discriminate|].
    simpl. constructor; [apply is_digit_decimal_digit, Hc | apply matches_star_digits, H2].
  - intros [Hne H]. destruct H as [|c s Hc Hs]; [contradiction|].
    apply (MSeq (s1 := [c])).
    + apply MClass, is_digit_decimal_digit, Hc.
    + apply matches_star_digits, Hs.
Qed.

End JsFacts.

(** ** Facts about the class *)

Module VideoServiceFacts.
Import Js Net VideoService Spec JsFacts.

(** *** Validation *)

Lemma matches_sizeRegex s : matches sizeRegex s <-> size_format s.
Proof.
  unfold sizeRegex, size_format. split.
  - intros H. apply matches_seq_inv in H as (w & t & -> & Hw & H).
    apply matches_seq_inv in H as (x & h & -> & Hx & Hh).
    apply matches_class_inv in Hx as (c & -> & Hc). apply N.eqb_eq in Hc. subst c.
    apply matches_plus_digits in Hw as [Hw1 Hw2].
    apply matches_plus_digits in Hh as [Hh1 Hh2].
    exists w, h. repeat split; assumption.
  - intros (w & h & -> & Hw1 & Hh1 & Hw2 & Hh2).
    apply MSeq; [apply matches_plus_digits; split; assumption|].
    apply (MSeq (s1 := js "x")).
    + apply MClass. reflexivity.
    + apply matches_plus_digits; split; assumption.
Qed.

Lemma normalizeSize_cases value :
  (size_format value /\ normalizeSize value = inr value)
  \/ (~ size_format value /\ normalizeSize value = inl (size_message value)).
Proof.
  unfold normalizeSize. destruct (regex_test sizeRegex value) eqn:E; simpl.
  - left. split; [|reflexivity]. apply matches_sizeRegex, regex_test_matches, E.
  - right. split; [|reflexivity]. intros H.
    apply matches_sizeRegex, regex_test_matches in H. congruence.
Qed.

Lemma decimal_digits_Forall n : Forall decimal_digit (decimal n).
Proof.
  apply Forall_forall. intros c Hc. apply is_digit_decimal_digit.
  pose proof (decimal_digits n) as H. rewrite forallb_forall in H. apply H, Hc.
Qed.

Lemma normalizeSeconds_cases value :
  (exists z, parseInt (toString value) = NumInt z /\ (0 < z)%Z
             /\ normalizeSeconds value = inr (toString value))
  \/ ((parseInt (toString value) = NumNaN
       \/ exists z, parseInt (toString value) = NumInt z /\ (z <= 0)%Z)
      /\ normalizeSeconds value = inl (duration_message value)).
Proof.
  unfold normalizeSeconds, duration_message.
  destruct (parseInt_cases (toString value)) as [E|[z E]]; rewrite E; simpl.
  - right. split; [left|]; reflexivity.
  - destruct (Z.leb_spec z 0).
    + right. split; [right; exists z; split; [reflexivity|assumption] | reflexivity].
    + left. exists z. repeat split. assumption.
Qed.

(** A positive integer, given as its numeral or as a number, comes back
    as its numeral. *)
Lemma normalizeSeconds_canonical (n : N) :
  (0 < n)%N ->
  normalizeSeconds (OfString (decimal n)) = inr (decimal n)
  /\ normalizeSeconds (OfNumber (NumInt (Z.of_N n))) = inr (decimal n).
Proof.
  intros Hn.
  assert (H : normalizeSeconds (OfString (decimal n)) = inr (decimal n)).
  { unfold normalizeSeconds. simpl toString. rewrite parseInt_decimal. simpl.
    destruct (Z.leb_spec (Z.of_N n) 0); [lia | reflexivity]. }
  split; [exact H|].
  unfold normalizeSeconds in *. simpl toString in *. unfold number_toString.
  destruct (Z.ltb_spec (Z.of_N n) 0); [lia|]. rewrite N2Z.id. exact H.
Qed.

Lemma createVideo_invalid_seconds env config params e :
  normalizeSeconds (seconds params) = inl e ->
  run env (createVideo config params) = ([], inl e).
Proof. intros H. unfold createVideo. rewrite H. reflexivity. Qed.

(** *** Error translation *)

Lemma is_auth_status_true v :
  is_auth_status v = true -> v = VNumber (NumInt 401) \/ v = VNumber (NumInt 403).
Proof.
  destruct v as [| | |[z| |]| | | |]; simpl; try discriminate.
  intros H. apply orb_true_iff in H as [H|H]; apply Z.eqb_eq in H; subst; auto.
Qed.

Lemma is_invalid_api_key_code_true v :
  is_invalid_api_key_code v = true -> v = VString (js "invalid_api_key").
Proof.
  destruct v; simpl; try discriminate.
  intros H. apply jsstring_eqb_eq in H. congruence.
Qed.

Lemma handleFrontendError_invalid_credential thrown :
  exposes_invalid_credential thrown ->
  handleFrontendError thrown = NewInvalidApiKeyError.
Proof.
  intros (props & Hobj & H). unfold handleFrontendError.
  assert (E : is_auth_status (lookup (js "status") props)
              || is_invalid_api_key_code (lookup (js "code") props) = true).
  { apply orb_true_iff.
    destruct H as [H|[H|H]]; rewrite H; [left|left|right]; reflexivity. }
  destruct Hobj as [-> | ->]; cbn [truthy typeof_object andb get_prop];
    rewrite E; reflexivity.
Qed.

Lemma handleFrontendError_rethrows thrown :
  ~ exposes_invalid_credential thrown -> instanceof_Error thrown = true ->
  handleFrontendError thrown = Foreign thrown.
Proof.
  intros Hn Hi. destruct thrown; try discriminate.
  unfold handleFrontendError.
  cbn [truthy typeof_object andb get_prop instanceof_Error].
  destruct (is_auth_status (lookup (js "status") props)
            || is_invalid_api_key_code (lookup (js "code") props)) eqn:E;
    [|reflexivity].
  exfalso. apply Hn. exists props. split; [right; reflexivity|].
  apply orb_true_iff in E as [E|E].
  - apply is_auth_status_true in E. tauto.
  - apply is_invalid_api_key_code_true in E. tauto.
Qed.

Lemma handleFrontendError_wraps thrown :
  ~ exposes_invalid_credential thrown -> instanceof_Error thrown = false ->
  handleFrontendError thrown
  = NewError (VString (js "Unexpected error while communicating with OpenAI.")).
Proof.
  intros Hn Hi. unfold handleFrontendError. rewrite Hi.
  destruct thrown as [| |b|n|s|items|props|props]; try discriminate;
    try reflexivity; cbn [truthy typeof_object andb get_prop].
  - destruct b; reflexivity.
  - rewrite andb_false_r. reflexivity.
  - destruct s; reflexivity.
  - destruct (is_auth_status (lookup (js "status") props)
              || is_invalid_api_key_code (lookup (js "code") props)) eqn:E;
      [|reflexivity].
    exfalso. apply Hn. exists props. split; [left; reflexivity|].
    apply orb_true_iff in E as [E|E].
    + apply is_auth_status_true in E. tauto.
    + apply is_invalid_api_key_code_true in E. tauto.
Qed.

(** *** Running the operations

    [step] splits on the next thing a run depends on: a validation
    outcome, an optional configuration string, or an oracle's answer. *)

Ltac step :=
  match goal with
  | |- context [normalizeSeconds ?x] => destruct (normalizeSeconds x) eqn:?
  | |- context [normalizeSize ?x] => destruct (normalizeSize x) eqn:?
  | |- context [present ?o] => destruct (present o) eqn:?
  | |- context [encodeURIComponent ?h] => destruct (encodeURIComponent h) eqn:?
  | |- context [env_client ?e ?k ?b] => destruct (env_client e k b) eqn:?
  | |- context [env_videos ?e ?c ?r] => destruct (env_videos e c r) eqn:?
  | |- context [env_download ?e ?c ?i ?v] => destruct (env_download e c i v) eqn:?
  | |- context [content_blob ?c] => destruct (content_blob c) eqn:?
  | |- context [env_fetch ?e ?r] => destruct (env_fetch e r) eqn:?
  | |- context [ok ?r] => destruct (ok r) eqn:?
  | |- context [json ?r] => destruct (json r) eqn:?
  | |- context [blob ?r] => destruct (blob r) eqn:?
  | |- context [get_prop ?v ?n] => destruct (get_prop v n) eqn:?
  end; simpl.

Ltac unfold_ops :=
  unfold perform, createVideo, remixVideo, retrieveVideo, deleteVideo,
         downloadContent.

Ltac same_fetch :=
  match goal with
  | H : EvFetch _ = EvFetch _ |- _ => injection H as <-
  end.

Lemma validation_passes params :
  validation params = None ->
  normalizeSeconds (seconds params) = inr (toString (seconds params))
  /\ normalizeSize (size params) = inr (size params).
Proof.
  unfold validation. intros H.
  destruct (normalizeSeconds_cases (seconds params)) as [(z & _ & _ & E)|[_ E]];
    rewrite E in H; [|discriminate].
  destruct (normalizeSize_cases (size params)) as [[_ E2]|[_ E2]];
    rewrite E2 in H; [|discriminate].
  split; assumption.
Qed.

(** In frontend mode with a key, once the client is built and validation
    is passed, the run is the client's construction followed by the
    provider call of the operation, and whatever that call throws goes
    through [handleFrontendError]. *)
Lemma frontend_run env config call apiKey c :
  mode config = Frontend ->
  present (clientApiKey config) = Some apiKey ->
  env_client env apiKey (baseURL config) = inr c ->
  passes_validation call ->
  trace env (perform config call)
  = [EvCreateClient apiKey (baseURL config); provider_event c call]
  /\ forall thrown,
       provider_throws env c call thrown ->
       result env (perform config call) = inl (handleFrontendError thrown).
Proof.
  intros Hm Hk Hc Hv. unfold trace, result, provider_event, provider_throws.
  destruct call as [params| | | |videoId variant]; simpl in Hv |- *.
  - destruct (validation_passes params Hv) as [E1 E2].
    unfold createVideo. rewrite E1, E2, Hm, Hk. simpl. rewrite Hc. simpl.
    destruct (env_videos env c _) eqn:Ev; simpl; (split; [reflexivity|]);
      intros thrown H; congruence.
  - unfold remixVideo. rewrite Hm, Hk. simpl. rewrite Hc. simpl.
    destruct (env_videos env c _) eqn:Ev; simpl; (split; [reflexivity|]);
      intros thrown H; congruence.
  - unfold retrieveVideo. rewrite Hm, Hk. simpl. rewrite Hc. simpl.
    destruct (env_videos env c _) eqn:Ev; simpl; (split; [reflexivity|]);
      intros thrown H; congruence.
  - unfold deleteVideo. rewrite Hm, Hk. simpl. rewrite Hc. simpl.
    destruct (env_videos env c _) eqn:Ev; simpl; (split; [reflexivity|]);
      intros thrown H; congruence.
  - unfold downloadContent. rewrite Hm, Hk. simpl. rewrite Hc. simpl.
    destruct variant as [v|]; simpl.
    all: destruct (env_download env c videoId _) as [t|content] eqn:Ev; simpl;
      [|destruct (content_blob content) eqn:Eb; simpl];
      (split; [reflexivity|]);
      intros thrown [H|(content' & H & Hb)]; congruence.
Qed.

(** A frontend call that succeeds returns what the provider resolved its
    call to. *)
Lemma frontend_success env config call out :
  mode config = Frontend ->
  result env (perform config call) = inr out ->
  exists apiKey c,
    present (clientApiKey config) = Some apiKey
    /\ env_client env apiKey (baseURL config) = inr c
    /\ match provider_call call with
       | AskVideos sreq =>
           exists v, env_videos env c sreq = inr v
                     /\ out = match call with Delete _ => Deleted | _ => Job v end
       | AskContent videoId variant =>
           exists content b,
             env_download env c videoId variant = inr content
             /\ content_blob content = inr b /\ out = Media b
       end.
Proof.
  intros Hm. unfold result.
  destruct call as [params| | | |videoId variant]; unfold_ops.
  1: destruct (normalizeSeconds_cases (seconds params)) as [(z & _ & _ & E1)|[_ E1]];
    rewrite E1; simpl; [|discriminate];
    destruct (normalizeSize_cases (size params)) as [[_ E2]|[_ E2]];
    rewrite E2; simpl; [|discriminate].
  all: rewrite Hm; simpl; repeat step; intros H; try discriminate;
    injection H as <-; do 2 eexists; (split; [reflexivity|]);
    (split; [eassumption|]).
  all: try (eexists; split; [eassumption | reflexivity]).
  all: do 2 eexists; (split; [eassumption|]);
    (split; [eassumption | reflexivity]).
Qed.

(** A backend call that succeeds returns what the backend served, with a
    2xx status, in answer to the request of the call. *)
Lemma backend_success env config call out :
  mode config = Backend ->
  result env (perform config call) = inr out ->
  exists req r,
    backend_request config call = Some req
    /\ env_fetch env req = inr r /\ ok r = true
    /\ match call with
       | Delete _ => out = Deleted
       | Download _ _ => exists b, blob r = inr b /\ out = Media b
       | _ => exists v, json r = inr v /\ out = Job v
       end.
Proof.
  intros Hm. unfold result, backend_request.
  destruct call as [params| | | |videoId variant]; unfold_ops; unfold hash_headers.
  1: destruct (normalizeSeconds_cases (seconds params)) as [(z & _ & _ & E1)|[_ E1]];
    rewrite E1; simpl; [|discriminate];
    destruct (normalizeSize_cases (size params)) as [[_ E2]|[_ E2]];
    rewrite E2; simpl; [|discriminate].
  all: rewrite Hm; simpl.
  2: destruct (clientPasswordHash config) eqn:Eh; simpl.
  all: repeat step; intros H; try discriminate; injection H as <-.
  all: do 2 eexists; (split; [reflexivity|]); (split; [eassumption|]);
    (split; [eassumption|]);
    first [ reflexivity | eexists; split; [eassumption | reflexivity] ].
Qed.

(** Frontend mode never calls [fetch]; backend mode calls nothing else. *)(** Frontend mode never calls [fetch]; backend mode calls nothing else. *)
Lemma mode_separation env config call :
  (mode config = Frontend ->
   forall req, ~ In (EvFetch req) (trace env (perform config call)))
  /\ (mode config = Backend ->
      forall e, In e (trace env (perform config call)) -> exists req, e = EvFetch req).
Proof.
  unfold trace. split; intros Hm.
  - intros req. destruct call; unfold_ops; rewrite Hm; simpl; repeat step;
      intros H; simpl in H; intuition discriminate.
  - intros e. destruct call; unfold_ops; rewrite Hm; simpl; repeat step;
      intros H; simpl in H; intuition eauto.
Qed.

Lemma backend_issues_request env config call :
  mode config = Backend ->
  (exists req, trace env (perform config call) = [EvFetch req])
  \/ (trace env (perform config call) = []
      /\ ((exists params e, call = Create params /\ validation params = Some e
                            /\ result env (perform config call) = inl e)
          \/ (exists videoId variant h,
                call = Download videoId variant
                /\ present (clientPasswordHash config) = Some h
                /\ encodeURIComponent h = None
                /\ result env (perform config call) = inl URIError))).
Proof.
  intros Hm. unfold trace, result, validation.
  destruct call; unfold_ops; rewrite Hm; simpl; repeat step;
    try (left; eexists; reflexivity).
  all: right; split; [reflexivity|];
    first [ left; do 2 eexists; repeat split;
            repeat match goal with
                   | H : normalizeSeconds _ = _ |- _ => rewrite H; clear H
                   | H : normalizeSize _ = _ |- _ => rewrite H; clear H
                   end; reflexivity
          | right; do 3 eexists; repeat split; eassumption ].
Qed.

Lemma backend_without_hash env config call req :
  mode config = Backend -> present (clientPasswordHash config) = None ->
  In (EvFetch req) (trace env (perform config call)) ->
  ~ has_header (js "x-password-hash") req
  /\ ~ has_form_field (js "passwordHash") req
  /\ (forall videoId variant, call = Download videoId variant ->
        url req = js "/api/videos/" ++ videoId ++ js "/content?variant="
                  ++ variant_text (default_variant variant)).
Proof.
  intros Hm Hh. unfold trace, has_header, has_form_field.
  destruct call as [params| | | |]; unfold_ops; unfold hash_headers;
    rewrite Hm, ?Hh; simpl;
    try destruct (input_reference params);
    repeat step; intros H; simpl in H; intuition (try discriminate).
  all: same_fetch; simpl in *; intuition (try discriminate); try congruence.
  all: match goal with
       | H : Download _ _ = Download _ _ |- _ => injection H as <- <-
       end; reflexivity.
Qed.

Lemma catalogue_equivalent cfgF cfgB videoId :
  equivalent_answers Examples.catalogue cfgF cfgB (Retrieve videoId).
Proof.
  intros apiKey c req r _ _ Hreq Hr _. simpl. intros v v' Hv Hj.
  injection Hreq as <-. injection Hv as <-. simpl in Hr. injection Hr as <-.
  simpl in Hj. injection Hj as <-. reflexivity.
Qed.

End VideoServiceFacts.

(** ** The properties of the specification *)

Import Js Net VideoService Spec JsFacts VideoServiceFacts.

(** C1 (amended).  [normalizeSeconds], given a string or a number whose
    string form the model prints (a safe integer, NaN or an infinity),
    reads that string form with [parseInt(_, 10)] and fails with the
    "Invalid duration" error exactly when the reading is NaN or an
    integer <= 0.  Every accepted input is returned as its own string
    form, unchanged; in particular a positive integer given as its
    decimal numeral, or as a safe integer number, comes back as that
    numeral.  When [createVideo] is given a duration that fails, it throws
    that error with an empty trace: no client was built and no transport
    was called, in either mode. *)
Theorem normalizeSeconds_contract (value : NumberOrString) :
  printable value ->
  (normalizeSeconds value = inl (duration_message value)
   <-> (parseInt (toString value) = NumNaN
        \/ exists z, parseInt (toString value) = NumInt z /\ (z <= 0)%Z))
  /\ (normalizeSeconds value = inr (toString value)
      <-> exists z, parseInt (toString value) = NumInt z /\ (0 < z)%Z)
  /\ (forall r, normalizeSeconds value = inr r -> r = toString value)
  /\ (forall e, normalizeSeconds value = inl e ->
        e = duration_message value
        /\ forall env config params, seconds params = value ->
             run env (createVideo config params) = ([], inl e))
  /\ (forall n : N, (0 < n)%N ->
        value = OfString (decimal n)
        \/ (value = OfNumber (NumInt (Z.of_N n)) /\ (n <= 9007199254740991)%N) ->
        normalizeSeconds value = inr (decimal n)).
Proof.
  intros _.
  destruct (normalizeSeconds_cases value) as [(z & Ez & Hz & E)|[Hbad E]].
  - split; [|split; [|split; [|split]]].
    + split; [congruence|].
      intros [H|(z' & H & Hz')]; [congruence|].
      rewrite Ez in H. injection H as <-. lia.
    + split; [|intros _; exact E]. intros _. exists z. split; assumption.
    + congruence.
    + congruence.
    + intros n Hn [->|[-> _]]; apply normalizeSeconds_canonical; exact Hn.
  - split; [|split; [|split; [|split]]].
    + split; intros _; assumption.
    + split; [congruence|].
      intros (z & Ez & Hz).
      destruct Hbad as [H|(z' & H & Hz')]; rewrite Ez in H;
        [discriminate | injection H as <-; lia].
    + congruence.
    + intros e He. split; [congruence|].
      intros env config params <-. apply createVideo_invalid_seconds. exact He.
    + intros n Hn [->|[-> _]]; apply normalizeSeconds_canonical; exact Hn.
Qed.

Lemma normalizeSeconds_contract_witness :
  printable (OfNumber (NumInt 8))
  /\ normalizeSeconds (OfNumber (NumInt 8)) = inr (js "8")
  /\ normalizeSeconds (OfNumber (NumInt 0))
     = inl (NewError (VString
         (js "Invalid duration: 0. Duration must be a positive number."))).
Proof.
  assert (H8 : printable (OfNumber (NumInt 8))) by (simpl; lia).
  assert (H0 : printable (OfNumber (NumInt 0))) by (simpl; lia).
  split; [exact H8|]. split.
  - apply (proj2 (proj1 (proj2 (normalizeSeconds_contract (OfNumber (NumInt 8)) H8)))).
    exists 8%Z. split; [reflexivity | lia].
  - apply (proj2 (proj1 (normalizeSeconds_contract (OfNumber (NumInt 0)) H0))).
    right. exists 0%Z. split; [reflexivity | lia].
Defined.

(** C1, as stated, fails: the string "08" is accepted and parses to 8,
    but what is returned is "08", not the canonical numeral "8". *)
Lemma normalizeSeconds_keeps_input_text :
  normalizeSeconds (OfString (js "08")) = inr (js "08")
  /\ parseInt (js "08") = NumInt 8
  /\ decimal 8 = js "8"
  /\ js "08" <> decimal 8.
Proof. repeat split. discriminate. Qed.

(** C2 (amended).  In frontend mode with no API key configured
    (undefined, null or empty), every operation fails with an empty
    trace: no SDK client is built and no transport is called.  The error
    is "API key is required for frontend mode", except that [createVideo]
    validates its duration and size first and throws their error when one
    of them is invalid. *)
Theorem missing_credential_fails_first env config call :
  mode config = Frontend -> present (clientApiKey config) = None ->
  run env (perform config call)
  = ([], inl match call with
             | Create params =>
                 match validation params with
                 | Some e => e
                 | None => api_key_required
                 end
             | _ => api_key_required
             end).
Proof.
  intros Hm Hk.
  destruct call as [params| | | |]; unfold_ops; unfold validation;
    try (rewrite Hm, Hk; reflexivity).
  destruct (normalizeSeconds (seconds params)); [reflexivity|]. simpl.
  destruct (normalizeSize (size params)); [reflexivity|]. simpl.
  rewrite Hm, Hk. reflexivity.
Qed.

Lemma missing_credential_fails_first_witness :
  run Examples.serving (perform Examples.frontend_no_key (Retrieve Examples.video_id))
  = ([], inl api_key_required).
Proof.
  exact (missing_credential_fails_first Examples.serving Examples.frontend_no_key
           (Retrieve Examples.video_id) eq_refl eq_refl).
Defined.

(** C2, as stated, fails: [createVideo] in frontend mode without a key
    and with the size "720p" throws the size error, not the missing key
    error (and still makes no call). *)
Lemma validation_precedes_credential_check :
  run Examples.serving
      (perform Examples.frontend_no_key (Create Examples.bad_size_params))
  = ([], inl (size_message (js "720p")))
  /\ size_message (js "720p")
     = NewError (VString (js ("Invalid video size format: 720p. "
                              ++ "Must be in format WIDTHxHEIGHT (e.g., 1280x720)")))
  /\ size_message (js "720p") <> api_key_required.
Proof. split; [reflexivity | split; [reflexivity | discriminate]]. Qed.

(** C3.  In frontend mode, for every operation: with an API key
    configured, the client built and (for a creation) validation passed,
    the operation makes its provider call, and when that call (or, for a
    download, the reading of the content it returned) throws a value
    exposing a numeric status of 401 or 403, or the code
    "invalid_api_key", the operation fails with InvalidApiKeyError
    whatever else the value carries; any other thrown value that is an
    Error is thrown again as it is. *)
Theorem invalid_credential_translation env config call apiKey c thrown :
  mode config = Frontend -> covered call ->
  present (clientApiKey config) = Some apiKey ->
  env_client env apiKey (baseURL config) = inr c ->
  passes_validation call ->
  provider_throws env c call thrown ->
  trace env (perform config call)
  = [EvCreateClient apiKey (baseURL config); provider_event c call]
  /\ (exposes_invalid_credential thrown ->
      result env (perform config call) = inl NewInvalidApiKeyError)
  /\ (~ exposes_invalid_credential thrown -> instanceof_Error thrown = true ->
      result env (perform config call) = inl (Foreign thrown)).
Proof.
  intros Hm _ Hk Hc Hv Ht.
  destruct (frontend_run env config call apiKey c Hm Hk Hc Hv) as [Htrace Hres].
  split; [exact Htrace|]. rewrite (Hres thrown Ht). split.
  - intros H. rewrite handleFrontendError_invalid_credential by exact H. reflexivity.
  - intros Hn Hi. rewrite handleFrontendError_rethrows by assumption. reflexivity.
Qed.

Lemma invalid_credential_translation_witness :
  result Examples.rejecting (perform Examples.frontend_config (Create Examples.cat_params))
  = inl NewInvalidApiKeyError.
Proof.
  refine (proj1 (proj2 (invalid_credential_translation Examples.rejecting
                          Examples.frontend_config (Create Examples.cat_params)
                          (js "sk-test") 0%N Examples.unauthorized
                          eq_refl I eq_refl eq_refl eq_refl eq_refl)) _).
  exists [(js "status", VNumber (NumInt 401));
          (js "message", VString (js "Incorrect API key provided"))].
  split; [right; reflexivity | left; reflexivity].
Defined.

(** C4, at its failing input.  The backend answers 429 with the JSON body
    {"error":"quota exceeded"}: [retrieveVideo] and [downloadContent]
    report the status text and never read the body, while [createVideo],
    [remixVideo] and [deleteVideo] report the body's error field. *)
Theorem retrieve_ignores_error_body :
  result Examples.rejecting (retrieveVideo Examples.backend_config Examples.video_id)
  = inl (NewError (VString (js "Failed to fetch job status: Too Many Requests")))
  /\ result Examples.rejecting
            (downloadContent Examples.backend_config Examples.video_id None)
     = inl (NewError (VString (js "Failed to download video: Too Many Requests")))
  /\ result Examples.rejecting (createVideo Examples.backend_config Examples.cat_params)
     = inl (NewError (VString (js "quota exceeded")))
  /\ result Examples.rejecting
            (remixVideo Examples.backend_config Examples.video_id (js "dog"))
     = inl (NewError (VString (js "quota exceeded")))
  /\ result Examples.rejecting (deleteVideo Examples.backend_config Examples.video_id)
     = inl (NewError (VString (js "quota exceeded"))).
Proof. repeat split. Qed.

(** C5.  In backend mode, creating {model:"sora-2", prompt:"cat",
    size:"1280x720", seconds:"8"} without attachment makes exactly one
    call: a POST to /api/videos whose multipart body holds the four fields
    model, prompt, size and seconds with those values, preceded by a
    passwordHash field exactly when a hash is configured, and nothing
    else. *)
Theorem create_multipart_body env config :
  mode config = Backend ->
  exists form,
    trace env (createVideo config Examples.cat_params)
    = [EvFetch {| url := js "/api/videos"; method := js "POST";
                  headers := []; body := FormBody form |}]
    /\ ((exists h, present (clientPasswordHash config) = Some h
                   /\ form = (js "passwordHash", FormString h) :: Examples.four_fields)
        \/ (present (clientPasswordHash config) = None
            /\ form = Examples.four_fields)).
Proof.
  intros Hm. unfold trace, createVideo.
  change (normalizeSeconds (seconds Examples.cat_params)) with (@inr Exn _ (js "8")).
  change (normalizeSize (size Examples.cat_params)) with (@inr Exn _ (js "1280x720")).
  rewrite Hm. cbn [lift bind].
  destruct (present (clientPasswordHash config)) as [h|] eqn:Eh.
  - exists ((js "passwordHash", FormString h) :: Examples.four_fields). split.
    + simpl. repeat step; reflexivity.
    + left. exists h. split; reflexivity.
  - exists Examples.four_fields. split.
    + simpl. repeat step; reflexivity.
    + right. split; reflexivity.
Qed.

Lemma create_multipart_body_witness :
  exists form,
    trace Examples.serving (createVideo Examples.backend_config Examples.cat_params)
    = [EvFetch {| url := js "/api/videos"; method := js "POST";
                  headers := []; body := FormBody form |}]
    /\ ((exists h, present (clientPasswordHash Examples.backend_config) = Some h
                   /\ form = (js "passwordHash", FormString h) :: Examples.four_fields)
        \/ (present (clientPasswordHash Examples.backend_config) = None
            /\ form = Examples.four_fields)).
Proof.
  exact (create_multipart_body Examples.serving Examples.backend_config eq_refl).
Defined.

(** C6.  Mode equivalence: for every operation and every input, when the
    two transports return equivalent underlying data for that call (what
    the provider resolves the call to is what the backend serves in
    answer to the request of the call), the result a frontend-mode call
    succeeds with and the result a backend-mode call succeeds with are
    the same value (job, nothing, or blob). *)
Theorem mode_equivalence env cfgF cfgB call rF rB :
  mode cfgF = Frontend -> mode cfgB = Backend -> covered call ->
  equivalent_answers env cfgF cfgB call ->
  result env (perform cfgF call) = inr rF ->
  result env (perform cfgB call) = inr rB ->
  rF = rB.
Proof.
  intros HF HB _ Heq EF EB.
  destruct (frontend_success env cfgF call rF HF EF) as (apiKey & c & Hk & Hc & HoF).
  destruct (backend_success env cfgB call rB HB EB) as (req & r & Hreq & Hr & Hok & HoB).
  specialize (Heq apiKey c req r Hk Hc Hreq Hr Hok).
  destruct call; simpl in *.
  - destruct HoF as (v & Hv & ->). destruct HoB as (v' & Hv' & ->).
    f_equal. symmetry. apply (Heq v v' Hv Hv').
  - destruct HoF as (v & Hv & ->). destruct HoB as (v' & Hv' & ->).
    f_equal. symmetry. apply (Heq v v' Hv Hv').
  - destruct HoF as (v & Hv & ->). destruct HoB as (v' & Hv' & ->).
    f_equal. symmetry. apply (Heq v v' Hv Hv').
  - destruct HoF as (v & Hv & ->). subst rB. reflexivity.
  - destruct HoF as (content & b & Hd & Hb & ->). destruct HoB as (b' & Hb' & ->).
    f_equal. symmetry. apply (Heq content b b' Hd Hb Hb').
Qed.

Lemma mode_equivalence_witness :
  exists rF rB,
    result Examples.catalogue
           (perform Examples.frontend_config (Retrieve Examples.video_id)) = inr rF
    /\ result Examples.catalogue
              (perform Examples.backend_config (Retrieve Examples.video_id)) = inr rB
    /\ rF = Job (Examples.job_of Examples.video_id)
    /\ rF = rB.
Proof.
  exists (Job (Examples.job_of Examples.video_id)),
         (Job (Examples.job_of Examples.video_id)).
  split; [reflexivity|]. split; [reflexivity|]. split; [reflexivity|].
  exact (mode_equivalence Examples.catalogue Examples.frontend_config
           Examples.backend_config (Retrieve Examples.video_id)
           (Job (Examples.job_of Examples.video_id))
           (Job (Examples.job_of Examples.video_id))
           eq_refl eq_refl I
           (catalogue_equivalent Examples.frontend_config Examples.backend_config
              Examples.video_id)
           eq_refl eq_refl).
Defined.

(** C7.  Secret separation.  In backend mode a run (the requests issued,
    with URL, headers and body, and the outcome) does not depend on the
    API key: two configurations with the same password hash run alike,
    and only [fetch] is ever called.  In frontend mode a run does not
    depend on the password hash: two configurations with the same API key
    and base URL run alike, and [fetch] is never called. *)
Theorem secret_separation env call cfg1 cfg2 :
  (mode cfg1 = Backend -> mode cfg2 = Backend ->
   clientPasswordHash cfg1 = clientPasswordHash cfg2 ->
   run env (perform cfg1 call) = run env (perform cfg2 call))
  /\ (mode cfg1 = Backend ->
      forall e, In e (trace env (perform cfg1 call)) -> exists req, e = EvFetch req)
  /\ (mode cfg1 = Frontend -> mode cfg2 = Frontend ->
      clientApiKey cfg1 = clientApiKey cfg2 -> baseURL cfg1 = baseURL cfg2 ->
      run env (perform cfg1 call) = run env (perform cfg2 call))
  /\ (mode cfg1 = Frontend ->
      forall req, ~ In (EvFetch req) (trace env (perform cfg1 call))).
Proof.
  split; [|split; [|split]].
  - destruct cfg1 as [m1 k1 h1 b1], cfg2 as [m2 k2 h2 b2]. simpl.
    intros -> -> ->. destruct call; reflexivity.
  - apply mode_separation.
  - destruct cfg1 as [m1 k1 h1 b1], cfg2 as [m2 k2 h2 b2]. simpl.
    intros -> -> -> ->. destruct call; reflexivity.
  - apply mode_separation.
Qed.

(** C8.  [normalizeSize] fails with the "Invalid video size format" error
    exactly when its argument is not of the form <digits>x<digits> (the
    pattern ^\d+x\d+$), and returns every string of that form unchanged;
    no bound applies to the two numbers: any two numerals, 0 and
    arbitrarily large ones included, are accepted. *)
Theorem normalizeSize_contract (value : jsstring) :
  (normalizeSize value = inr value <-> size_format value)
  /\ (normalizeSize value = inl (size_message value) <-> ~ size_format value)
  /\ (forall r, normalizeSize value = inr r -> r = value)
  /\ (forall w h : N,
        normalizeSize (decimal w ++ js "x" ++ decimal h)
        = inr (decimal w ++ js "x" ++ decimal h)).
Proof.
  split; [|split; [|split]].
  - split; intros H.
    + destruct (normalizeSize_cases value) as [[Hf _]|[_ E]]; [exact Hf|congruence].
    + destruct (normalizeSize_cases value) as [[_ E]|[Hn _]]; [exact E|contradiction].
  - split; intros H.
    + intros Hf.
      destruct (normalizeSize_cases value) as [[_ E]|[Hn _]]; [congruence|contradiction].
    + destruct (normalizeSize_cases value) as [[Hf _]|[_ E]]; [contradiction|exact E].
  - intros r H. destruct (normalizeSize_cases value) as [[_ E]|[_ E]]; congruence.
  - intros w h.
    destruct (normalizeSize_cases (decimal w ++ js "x" ++ decimal h))
      as [[_ E]|[Hn _]]; [exact E|].
    exfalso. apply Hn. exists (decimal w), (decimal h).
    repeat split; try apply decimal_nonempty; apply decimal_digits_Forall.
Qed.


(** C10 (amended).  In backend mode no operation needs a password hash.
    A call makes exactly one request, unless [createVideo] rejects its
    duration or size, or [downloadContent] cannot URI-encode a configured
    hash (an unpaired surrogate); nothing else stops a call before its
    request, so no call fails for want of configuration.  When no hash is
    configured (undefined, null or empty) the request has no
    x-password-hash header and no passwordHash form field, and the
    download URL ends at its variant, with no password-hash parameter. *)
Theorem backend_needs_no_hash env config call :
  mode config = Backend ->
  ((exists req, trace env (perform config call) = [EvFetch req])
   \/ (trace env (perform config call) = []
       /\ ((exists params e, call = Create params /\ validation params = Some e
                             /\ result env (perform config call) = inl e)
           \/ (exists videoId variant h,
                 call = Download videoId variant
                 /\ present (clientPasswordHash config) = Some h
                 /\ encodeURIComponent h = None
                 /\ result env (perform config call) = inl URIError))))
  /\ (present (clientPasswordHash config) = None ->
      forall req, In (EvFetch req) (trace env (perform config call)) ->
        ~ has_header (js "x-password-hash") req
        /\ ~ has_form_field (js "passwordHash") req
        /\ (forall videoId variant, call = Download videoId variant ->
              url req = js "/api/videos/" ++ videoId ++ js "/content?variant="
                        ++ variant_text (default_variant variant))).
Proof.
  intros Hm. split.
  - apply backend_issues_request, Hm.
  - intros Hh req Hin. apply (backend_without_hash env config call req Hm Hh Hin).
Qed.

Lemma backend_needs_no_hash_witness :
  trace Examples.serving (perform Examples.backend_no_hash (Retrieve Examples.video_id))
  = [EvFetch {| url := js "/api/videos/video_123"; method := js "GET";
                headers := []; body := NoBody |}].
Proof.
  destruct (proj1 (backend_needs_no_hash Examples.serving Examples.backend_no_hash
                     (Retrieve Examples.video_id) eq_refl)) as [_|_]; reflexivity.
Defined.

(** C10, as stated, fails: in backend mode [createVideo] with the size
    "720p" stops at validation and issues no request at all. *)
Lemma backend_call_without_request :
  run Examples.serving
      (perform Examples.backend_no_hash (Create Examples.bad_size_params))
  = ([], inl (size_message (js "720p")))
  /\ size_message (js "720p")
     = NewError (VString (js ("Invalid video size format: 720p. "
                              ++ "Must be in format WIDTHxHEIGHT (e.g., 1280x720)"))).
Proof. split; reflexivity. Qed.

(** ** Further properties of the backend failure paths *)

(** In backend mode, [createVideo], [remixVideo] and [deleteVideo] turn a
    non-2xx response whose JSON body has a non-empty string [error] field
    into an Error carrying exactly that string. *)
Theorem backend_error_field env config call req r payload e :
  mode config = Backend -> reads_error_body call = true ->
  In (EvFetch req) (trace env (perform config call)) ->
  env_fetch env req = inr r -> ok r = false -> json r = inr payload ->
  get_prop payload (js "error") = Some (VString e) -> e <> [] ->
  result env (perform config call) = inl (NewError (VString e)).
Proof.
  intros Hm Hc. unfold trace, result.
  destruct call; try discriminate; unfold_ops; rewrite Hm; simpl; repeat step;
    intros Hin Hr Hok Hj Hp He; simpl in Hin; intuition (try discriminate);
    same_fetch;
    repeat match goal with
           | H1 : ?x = _, H2 : ?x = _ |- _ => rewrite H1 in H2
           | H : inr _ = inr _ |- _ => injection H as ->
           | H : inl _ = inr _ |- _ => discriminate H
           | H : inr _ = inl _ |- _ => discriminate H
           | H : Some _ = Some _ |- _ => injection H as ->
           | H : None = Some _ |- _ => discriminate H
           | H : true = false |- _ => discriminate H
           end;
    try congruence.
  all: destruct e as [|c e]; [exfalso; auto | reflexivity].
Qed.

Lemma backend_error_field_witness :
  result Examples.rejecting (perform Examples.backend_config (Delete Examples.video_id))
  = inl (NewError (VString (js "quota exceeded"))).
Proof.
  refine (backend_error_field Examples.rejecting Examples.backend_config
            (Delete Examples.video_id)
            {| url := js "/api/videos/video_123"; method := js "DELETE";
               headers := [(js "x-password-hash", js "5e884898da28")];
               body := NoBody |}
            {| status := 429; statusText := js "Too Many Requests";
               json := inr (VObject [(js "error", VString (js "quota exceeded"))]);
               blob := inl VUndefined |}
            (VObject [(js "error", VString (js "quota exceeded"))])
            (js "quota exceeded")
            eq_refl eq_refl _ eq_refl eq_refl eq_refl eq_refl _).
  - left. reflexivity.
  - discriminate.
Defined.

(** In backend mode, [retrieveVideo] and [downloadContent] turn any
    non-2xx response into an Error built from the response's status text
    alone, whatever its body holds. *)
Theorem backend_status_text env config call req r :
  mode config = Backend -> reads_error_body call = false ->
  In (EvFetch req) (trace env (perform config call)) ->
  env_fetch env req = inr r -> ok r = false ->
  result env (perform config call)
  = inl (NewError (VString
      (match call with
       | Download _ variant =>
           js "Failed to download " ++ variant_text (default_variant variant)
           ++ js ": "
       | _ => js "Failed to fetch job status: "
       end ++ statusText r))).
Proof.
  intros Hm Hc. unfold trace, result.
  destruct call; try discriminate; unfold_ops; rewrite Hm; simpl; repeat step;
    intros Hin Hr Hok; simpl in Hin; intuition (try discriminate);
    same_fetch;
    repeat match goal with
           | H1 : ?x = _, H2 : ?x = _ |- _ => rewrite H1 in H2
           | H : inr _ = inr _ |- _ => injection H as ->
           | H : inl _ = inr _ |- _ => discriminate H
           | H : true = false |- _ => discriminate H
           end;
    try congruence;
    rewrite <- ?app_assoc; reflexivity.
Qed.

Lemma backend_status_text_witness :
  result Examples.rejecting
         (perform Examples.backend_no_hash (Download Examples.video_id (Some Thumbnail)))
  = inl (NewError (VString (js "Failed to download thumbnail: Too Many Requests"))).
Proof.
  refine (backend_status_text Examples.rejecting Examples.backend_no_hash
            (Download Examples.video_id (Some Thumbnail))
            {| url := js "/api/videos/video_123/content?variant=thumbnail";
               method := js "GET"; headers := []; body := NoBody |}
            {| status := 429; statusText := js "Too Many Requests";
               json := inr (VObject [(js "error", VString (js "quota exceeded"))]);
               blob := inl VUndefined |}
            eq_refl eq_refl _ eq_refl eq_refl).
  left. reflexivity.
Defined.

(** ** Further properties of validation and of error translation *)

(** A creation request that fails validation fails the same way in both
    modes, whatever the configuration, and before anything is called. *)
Theorem validation_is_mode_independent env config params e :
  validation params = Some e ->
  run env (createVideo config params) = ([], inl e).
Proof.
  unfold validation, createVideo.
  destruct (normalizeSeconds (seconds params)) as [e1|s1]; simpl.
  - intros H. injection H as ->. reflexivity.
  - destruct (normalizeSize (size params)) as [e2|s2]; simpl.
    + intros H. injection H as ->. reflexivity.
    + discriminate.
Qed.

Lemma validation_is_mode_independent_witness :
  run Examples.serving (createVideo Examples.frontend_config Examples.bad_size_params)
  = run Examples.serving (createVideo Examples.backend_config Examples.bad_size_params).
Proof.
  rewrite (validation_is_mode_independent Examples.serving Examples.frontend_config
             Examples.bad_size_params (size_message (js "720p")) eq_refl).
  reflexivity.
Defined.

(** In frontend mode, for every operation: with an API key configured,
    the client built and (for a creation) validation passed, a value
    thrown by the provider call that is neither a credential failure nor
    an Error is replaced by a plain Error with a fixed message. *)
Theorem unexpected_error_wrapping env config call apiKey c thrown :
  mode config = Frontend -> covered call ->
  present (clientApiKey config) = Some apiKey ->
  env_client env apiKey (baseURL config) = inr c ->
  passes_validation call ->
  provider_throws env c call thrown ->
  ~ exposes_invalid_credential thrown -> instanceof_Error thrown = false ->
  result env (perform config call)
  = inl (NewError (VString (js "Unexpected error while communicating with OpenAI."))).
Proof.
  intros Hm _ Hk Hc Hv Ht Hn Hi.
  destruct (frontend_run env config call apiKey c Hm Hk Hc Hv) as [_ Hres].
  rewrite (Hres thrown Ht).
  rewrite handleFrontendError_wraps by assumption. reflexivity.
Qed.

Lemma unexpected_error_wrapping_witness :
  result Examples.broken
         (perform Examples.frontend_config (Remix Examples.video_id (js "dog")))
  = inl (NewError (VString (js "Unexpected error while communicating with OpenAI."))).
Proof.
  refine (unexpected_error_wrapping Examples.broken Examples.frontend_config
            (Remix Examples.video_id (js "dog")) (js "sk-test") 0%N
            (VString (js "socket closed"))
            eq_refl I eq_refl eq_refl I eq_refl _ eq_refl).
  intros (props & [H|H] & _); discriminate H.
Defined.

(** ** The body of a remix request *)

(** In backend mode the JSON body of a remix lists the prompt and then
    the configured password hash, which JSON.stringify leaves out only
    when it is undefined. *)
Theorem remix_json_body env config sourceVideoId prompt req :
  mode config = Backend ->
  In (EvFetch req) (trace env (perform config (Remix sourceVideoId prompt))) ->
  body req = JsonBody ((js "prompt", VString prompt)
                       :: match clientPasswordHash config with
                          | Undefined => []
                          | Null => [(js "passwordHash", VNull)]
                          | Str s => [(js "passwordHash", VString s)]
                          end).
Proof.
  intros Hm. unfold trace. unfold_ops. rewrite Hm. simpl.
  repeat step; intros H; simpl in H; intuition (try discriminate).
  all: same_fetch; simpl.
  all: destruct (clientPasswordHash config); reflexivity.
Qed.

Lemma remix_json_body_witness :
  In (EvFetch Examples.remix_request)
     (trace Examples.serving
            (perform Examples.backend_config (Remix Examples.video_id (js "dog"))))
  /\ body Examples.remix_request
     = JsonBody [(js "prompt", VString (js "dog"));
                 (js "passwordHash", VString (js "5e884898da28"))].
Proof.
  assert (Hin : In (EvFetch Examples.remix_request)
                   (trace Examples.serving
                      (perform Examples.backend_config
                         (Remix Examples.video_id (js "dog"))))).
  { left. reflexivity. }
  split; [exact Hin|].
  exact (remix_json_body Examples.serving Examples.backend_config
           Examples.video_id (js "dog") Examples.remix_request eq_refl Hin).
Defined.

(** ** More facts about the built-ins *)

Module JsMoreFacts.
Import Js JsMore Spec SpecMore JsFacts.

(** *** parseInt on lenient input *)

Lemma trim_start_whitespace ws s :
  forallb is_whitespace ws = true -> trim_start (ws ++ s) = trim_start s.
Proof.
  induction ws as [|c ws IH]; simpl; [reflexivity|].
  intros H. apply andb_true_iff in H as [Hc Hws]. rewrite Hc. apply IH, Hws.
Qed.

Lemma trim_start_split s :
  exists ws, s = ws ++ trim_start s /\ forallb is_whitespace ws = true.
Proof.
  induction s as [|c s (ws & E & H)]; simpl.
  - exists []. split; reflexivity.
  - destruct (is_whitespace c) eqn:Hc.
    + exists (c :: ws). simpl. rewrite Hc, H. split; [f_equal; exact E | reflexivity].
    + exists []. split; reflexivity.
Qed.

Lemma trim_start_head s c t :
  trim_start s = c :: t -> is_whitespace c = false.
Proof.
  induction s as [|d s IH]; simpl; [discriminate|].
  destruct (is_whitespace d) eqn:Hd; [exact IH|].
  intros H. injection H as <- _. exact Hd.
Qed.

Lemma leading_digits_app ds tail :
  forallb is_digit ds = true -> starts_with_digit tail = false ->
  leading_digits (ds ++ tail) = ds.
Proof.
  induction ds as [|c ds IH]; simpl.
  - intros _ H. destruct tail as [|c t]; [reflexivity|]. simpl in *. rewrite H. reflexivity.
  - intros H Ht. apply andb_true_iff in H as [Hc Hds]. rewrite Hc, IH by assumption.
    reflexivity.
Qed.

Lemma leading_digits_split s :
  exists tail, s = leading_digits s ++ tail
               /\ forallb is_digit (leading_digits s) = true
               /\ starts_with_digit tail = false.
Proof.
  induction s as [|c s (tail & E & H & Ht)]; simpl.
  - exists []. repeat split.
  - destruct (is_digit c) eqn:Hc.
    + exists tail. simpl. rewrite Hc, H. repeat split; [f_equal; exact E | exact Ht].
    + exists (c :: s). simpl. rewrite Hc. repeat split.
Qed.

Lemma parseInt_lenient ws sign ds tail :
  forallb is_whitespace ws = true ->
  (sign = [] \/ sign = js "+") ->
  ds <> [] -> forallb is_digit ds = true -> starts_with_digit tail = false ->
  parseInt (ws ++ sign ++ ds ++ tail) = NumInt (Z.of_N (decimal_value ds)).
Proof.
  intros Hws Hsign Hne Hds Ht. unfold parseInt.
  rewrite trim_start_whitespace by exact Hws.
  destruct ds as [|d ds]; [contradiction|].
  pose proof Hds as Hall. simpl in Hds. apply andb_true_iff in Hds as [Hd _].
  pose proof (digit_not_whitespace d Hd) as Hdw.
  apply is_digit_bounds in Hd.
  assert (E : split_sign (trim_start (sign ++ (d :: ds) ++ tail))
              = (1%Z, (d :: ds) ++ tail)).
  { destruct Hsign as [-> | ->]; simpl; rewrite ?Hdw; simpl.
    - destruct (N.eqb_spec d 45); [lia|]. destruct (N.eqb_spec d 43); [lia|]. reflexivity.
    - reflexivity. }
  rewrite E. rewrite leading_digits_app by assumption.
  f_equal. destruct (decimal_value (d :: ds)); reflexivity.
Qed.

Lemma parseInt_negative n : parseInt (js "-" ++ decimal n) = NumInt (- Z.of_N n).
Proof.
  unfold parseInt. simpl.
  rewrite (leading_digits_all _ (decimal_digits n)).
  pose proof (decimal_nonempty n) as Hne.
  destruct (decimal n) as [|c ds] eqn:E; [contradiction|].
  rewrite <- E, decimal_value_decimal. f_equal; lia.
Qed.

(** *** parseInt without radix *)

Lemma parseInt_auto_digits s :
  s <> [] -> forallb is_digit s = true ->
  parseInt_auto s = NumInt (Z.of_N (decimal_value s)).
Proof.
  intros Hne Hd. destruct s as [|c s]; [contradiction|].
  pose proof Hd as Hds. simpl in Hd. apply andb_true_iff in Hd as [Hc Hrest].
  unfold parseInt_auto. cbn [trim_start]. rewrite (digit_not_whitespace _ Hc).
  pose proof Hc as Hb. apply is_digit_bounds in Hb. unfold split_sign.
  destruct (N.eqb_spec c 45) as [E|_]; [lia|].
  destruct (N.eqb_spec c 43) as [E|_]; [lia|].
  rewrite (leading_digits_all _ Hds).
  assert (Hdec : forall t : JsNumber,
            match c :: s with
            | [] => NumNaN
            | d :: ds => NumInt (1 * Z.of_N (decimal_value (d :: ds)))
            end = NumInt (Z.of_N (decimal_value (c :: s)))).
  { intros _. f_equal. destruct (decimal_value (c :: s)); reflexivity. }
  destruct c as [|p]; [lia|].
  destruct s as [|c2 s]; [repeat (destruct p as [p|p|]; try apply (Hdec NumNaN)) |].
  simpl in Hrest. apply andb_true_iff in Hrest as [Hc2 _]. apply is_digit_bounds in Hc2.
  assert (E : ((c2 =? 120) || (c2 =? 88))%N = false).
  { apply orb_false_iff. split; apply N.eqb_neq; lia. }
  repeat (destruct p as [p|p|]; rewrite ?E; try apply (Hdec NumNaN)).
Qed.

Lemma parseInt_auto_eq input :
  parseInt_auto input
  = let (sign, rest) := split_sign (trim_start input) in
    match rest with
    | c0 :: c :: digits =>
        if (c0 =? 48)%N && ((c =? 120) || (c =? 88))%N then
          match leading_hex_digits digits with
          | [] => NumNaN
          | ds => NumInt (sign * Z.of_N (hex_value ds))
          end
        else
          match leading_digits rest with
          | [] => NumNaN
          | ds => NumInt (sign * Z.of_N (decimal_value ds))
          end
    | _ =>
        match leading_digits rest with
        | [] => NumNaN
        | ds => NumInt (sign * Z.of_N (decimal_value ds))
        end
    end.
Proof.
  unfold parseInt_auto. destruct (split_sign (trim_start input)) as [sign rest].
  destruct rest as [|c0 [|c digits]]; try reflexivity.
  - destruct c0 as [|p]; [reflexivity|].
    do 6 (destruct p as [p|p|]; try reflexivity).
  - destruct c0 as [|p]; [reflexivity|].
    do 6 (destruct p as [p|p|]; try reflexivity).
Qed.

(** *** trim *)

Lemma trim_start_nil s : trim_start s = [] <-> forallb is_whitespace s = true.
Proof.
  induction s as [|c s IH]; simpl; [tauto|].
  destruct (is_whitespace c); simpl; [exact IH|]. split; discriminate.
Qed.

Lemma forallb_rev {A} (f : A -> bool) l : forallb f (rev l) = forallb f l.
Proof.
  induction l as [|x l IH]; simpl; [reflexivity|].
  rewrite forallb_app, IH. simpl. rewrite andb_true_r. apply andb_comm.
Qed.

Lemma trim_nil s : trim s = [] <-> forallb is_whitespace s = true.
Proof.
  unfold trim. split.
  - intros H. apply (f_equal (@rev _)) in H. rewrite rev_involutive in H. simpl in H.
    apply trim_start_nil in H. rewrite forallb_rev in H.
    destruct (trim_start s) as [|c t] eqn:E.
    + apply trim_start_nil, E.
    + apply trim_start_head in E. simpl in H. rewrite E in H. discriminate.
  - intros H. apply trim_start_nil in H. rewrite H. reflexivity.
Qed.

(** *** includes *)

Lemma includes_In l s : includes l s = true <-> In s l.
Proof.
  unfold includes. rewrite existsb_exists. split.
  - intros (x & Hx & E). apply jsstring_eqb_eq in E. subst. exact Hx.
  - intros H. exists s. split; [exact H | apply jsstring_eqb_eq; reflexivity].
Qed.

(** *** The alphabet of encodeURIComponent *)

Lemma hex_unit_unreserved d : (d < 16)%N -> is_uri_unreserved (hex_unit d) = true.
Proof.
  intros H. unfold hex_unit, is_uri_unreserved, in_range.
  destruct (N.ltb_spec d 10).
  - assert (E : ((48 <=? 48 + d) && (48 + d <=? 57))%N = true).
    { apply andb_true_iff. split; apply N.leb_le; lia. }
    rewrite E. rewrite !orb_true_r. reflexivity.
  - assert (E : ((65 <=? 55 + d) && (55 + d <=? 90))%N = true).
    { apply andb_true_iff. split; apply N.leb_le; lia. }
    rewrite E. reflexivity.
Qed.

Lemma percent_octet_chars b :
  (b < 256)%N -> forallb is_component_char (percent_octet b) = true.
Proof.
  intros H. unfold percent_octet, is_component_char. simpl.
  rewrite !hex_unit_unreserved.
  - rewrite !orb_true_l. reflexivity.
  - apply N.mod_lt. lia.
  - apply N.Div0.div_lt_upper_bound. lia.
Qed.

Lemma utf8_octets cp : (cp < 1114112)%N -> Forall (fun b => (b < 256)%N) (utf8 cp).
Proof.
  intros H. unfold utf8.
  destruct (N.ltb_spec cp 128); [repeat constructor; lia|].
  destruct (N.ltb_spec cp 2048).
  { assert (cp / 64 < 32)%N by (apply N.Div0.div_lt_upper_bound; lia).
    assert (cp mod 64 < 64)%N by (apply N.mod_lt; lia).
    repeat constructor; lia. }
  destruct (N.ltb_spec cp 65536).
  { assert (cp / 4096 < 16)%N by (apply N.Div0.div_lt_upper_bound; lia).
    assert ((cp / 64) mod 64 < 64)%N by (apply N.mod_lt; lia).
    assert (cp mod 64 < 64)%N by (apply N.mod_lt; lia).
    repeat constructor; lia. }
  assert (cp / 262144 < 8)%N by (apply N.Div0.div_lt_upper_bound; lia).
  assert ((cp / 4096) mod 64 < 64)%N by (apply N.mod_lt; lia).
  assert ((cp / 64) mod 64 < 64)%N by (apply N.mod_lt; lia).
  assert (cp mod 64 < 64)%N by (apply N.mod_lt; lia).
  repeat constructor; lia.
Qed.

Lemma percent_encode_chars cp :
  (cp < 1114112)%N -> forallb is_component_char (percent_encode cp) = true.
Proof.
  intros H. unfold percent_encode.
  pose proof (utf8_octets cp H) as Ho.
  induction Ho as [|b bs Hb _ IH]; [reflexivity|].
  cbn [flat_map]. rewrite forallb_app, percent_octet_chars by exact Hb. exact IH.
Qed.

Lemma forallb_app_true {A} (f : A -> bool) l1 l2 :
  forallb f l1 = true -> forallb f l2 = true -> forallb f (l1 ++ l2) = true.
Proof. intros H1 H2. rewrite forallb_app, H1, H2. reflexivity. Qed.

Lemma encodeURIComponent_chars_aux (n : nat) : forall s encoded,
  (List.length s <= n)%nat ->
  well_formed_units s -> encodeURIComponent s = Some encoded ->
  forallb is_component_char encoded = true.
Proof.
  induction n as [|n IH]; intros s encoded Hlen Hs.
  - destruct s; [|simpl in Hlen; lia]. simpl. intros H. injection H as <-. reflexivity.
  - destruct s as [|c rest]; simpl.
    + intros H. injection H as <-. reflexivity.
    + inversion Hs as [|? ? Hc Hrest]; subst. simpl in Hlen.
      destruct (is_uri_unreserved c) eqn:Hu.
      * destruct (encodeURIComponent rest) as [e|] eqn:E; [|discriminate].
        intros H. injection H as <-. simpl. unfold is_component_char at 1.
        rewrite Hu. simpl. apply (IH rest e); [lia | assumption | exact E].
      * destruct (is_trail_surrogate c) eqn:Htr; [discriminate|].
        destruct (is_lead_surrogate c) eqn:Hl.
        -- destruct rest as [|c2 rest']; [discriminate|].
           destruct (is_trail_surrogate c2) eqn:Ht2; [|discriminate].
           destruct (encodeURIComponent rest') as [e|] eqn:E; [|discriminate].
           intros H. injection H as <-.
           inversion Hrest as [|? ? Hc2 Hrest']; subst. simpl in Hlen.
           apply forallb_app_true.
           ++ apply percent_encode_chars. unfold surrogate_pair.
              unfold is_lead_surrogate, is_trail_surrogate, in_range in *.
              apply andb_true_iff in Hl as [Hl1 Hl2].
              apply andb_true_iff in Ht2 as [Ht1 Ht3].
              apply N.leb_le in Hl1, Hl2, Ht1, Ht3. lia.
           ++ apply (IH rest' e); [lia | assumption | exact E].
        -- destruct (encodeURIComponent rest) as [e|] eqn:E; [|discriminate].
           intros H. injection H as <-.
           apply forallb_app_true.
           ++ apply percent_encode_chars. lia.
           ++ apply (IH rest e); [lia | assumption | exact E].
Qed.

Lemma encodeURIComponent_chars s encoded :
  well_formed_units s -> encodeURIComponent s = Some encoded ->
  forallb is_component_char encoded = true.
Proof. apply (encodeURIComponent_chars_aux (List.length s)). lia. Qed.

End JsMoreFacts.

(** ** More facts about the class *)

Module VideoServiceMoreFacts.
Import Js Net VideoService Spec SpecMore JsFacts VideoServiceFacts JsMoreFacts.

Lemma createVideo_stops_at_validation env config params e :
  validation params = Some e ->
  run env (createVideo config params) = ([], inl e).
Proof.
  unfold validation, createVideo.
  destruct (normalizeSeconds (seconds params)) as [e1|s1]; simpl.
  - intros H. injection H as ->. reflexivity.
  - destruct (normalizeSize (size params)) as [e2|s2]; simpl.
    + intros H. injection H as ->. reflexivity.
    + discriminate.
Qed.

Lemma validation_none params :
  validation params = None ->
  normalizeSeconds (seconds params) = inr (toString (seconds params))
  /\ normalizeSize (size params) = inr (size params)
  /\ valid_request params.
Proof.
  unfold validation, valid_request. intros H.
  destruct (normalizeSeconds_cases (seconds params)) as [(z & Ez & Hz & E)|[_ E]];
    rewrite E in H; [|discriminate].
  destruct (normalizeSize_cases (size params)) as [[Hf E2]|[_ E2]];
    rewrite E2 in H; [|discriminate].
  repeat split; try assumption. exists z. split; assumption.
Qed.

Ltac settle :=
  repeat match goal with
         | H1 : ?x = _, H2 : ?x = _ |- _ => rewrite H1 in H2
         | H : inr _ = inr _ |- _ => injection H as ->
         | H : inl _ = inl _ |- _ => injection H as ->
         | H : Some _ = Some _ |- _ => injection H as ->
         | H : inl _ = inr _ |- _ => discriminate H
         | H : inr _ = inl _ |- _ => discriminate H
         | H : None = Some _ |- _ => discriminate H
         | H : true = false |- _ => discriminate H
         | H : false = true |- _ => discriminate H
         end.

(** What a backend call comes to, by what [fetch] and the body readers
    answer. *)
Lemma backend_outcomes env config call req :
  mode config = Backend ->
  In (EvFetch req) (trace env (perform config call)) ->
  (forall thrown, env_fetch env req = inl thrown ->
     result env (perform config call) = inl (Foreign thrown))
  /\ (forall r thrown, env_fetch env req = inr r -> ok r = false ->
        reads_error_body call = true -> json r = inl thrown ->
        result env (perform config call) = inl (Foreign thrown))
  /\ (forall r payload, env_fetch env req = inr r -> ok r = false ->
        reads_error_body call = true -> json r = inr payload ->
        payload = VNull \/ payload = VUndefined ->
        result env (perform config call) = inl TypeError)
  /\ (forall r thrown, env_fetch env req = inr r -> ok r = true ->
        match call with
        | Delete _ => result env (perform config call) = inr Deleted
        | Download _ _ =>
            blob r = inl thrown ->
            result env (perform config call) = inl (Foreign thrown)
        | _ =>
            json r = inl thrown ->
            result env (perform config call) = inl (Foreign thrown)
        end).
Proof.
  intros Hm. unfold trace, result.
  destruct call; unfold_ops; rewrite Hm; simpl; repeat step;
    intros Hin; simpl in Hin; intuition (try discriminate);
    try same_fetch; settle;
    subst; simpl in *; try congruence; try discriminate.
Qed.

Lemma ok_not_failing (r : Response) : ok r = true \/ ok r = false.
Proof. destruct (ok r); auto. Qed.

End VideoServiceMoreFacts.

(** ** Facts about the creation form *)

Module CreationFormFacts.
Import Js Net JsMore Spec SpecMore JsFacts VideoServiceFacts JsMoreFacts.
Import CreationForm.

Lemma acceptable_tests file :
  (acceptable file /\ (maxSizeBytes <? file_size file)%N = false
                   /\ includes validTypes (file_type file) = true)
  \/ (~ acceptable file
      /\ ((maxSizeBytes <? file_size file)%N = true
          \/ includes validTypes (file_type file) = false)).
Proof.
  unfold acceptable.
  destruct (N.ltb_spec maxSizeBytes (file_size file)) as [Hs|Hs].
  - right. split; [|left; reflexivity]. intros [H _]. unfold maxSizeBytes in Hs. lia.
  - destruct (includes validTypes (file_type file)) eqn:Hi.
    + left. repeat split; [unfold maxSizeBytes in Hs; lia | apply includes_In, Hi].
    + right. split; [|right; reflexivity]. intros [_ H].
      apply includes_In in H. congruence.
Qed.

Lemma validateAndSetFile_rejected browser n file :
  ~ acceptable file ->
  value (validateAndSetFile file browser n) = false
  /\ issued (validateAndSetFile file browser n) = n
  /\ exists message, log (validateAndSetFile file browser n) = [EvAlert message].
Proof.
  intros Hn. unfold validateAndSetFile.
  destruct (acceptable_tests file) as [(Ha & _)|(_ & [E|E])]; [contradiction| |].
  - rewrite E. cbn. repeat split. eexists; reflexivity.
  - destruct (maxSizeBytes <? file_size file)%N; rewrite ?E; cbn;
      (repeat split; eexists; reflexivity).
Qed.

Lemma detect_cases file browser n :
  (log (detectAndSetDimensions file browser n) = []
   /\ issued (detectAndSetDimensions file browser n) = n)
  \/ (log (detectAndSetDimensions file browser n) = [EvCreateObjectURL file]
      /\ issued (detectAndSetDimensions file browser n) = S n)
  \/ (exists wh,
        log (detectAndSetDimensions file browser n)
        = [EvCreateObjectURL file; EvSetSize (dimensions_text wh);
           EvRevokeObjectURL (objectURL browser n file)]
        /\ issued (detectAndSetDimensions file browser n) = S n).
Proof.
  unfold detectAndSetDimensions.
  destruct (startsWith (js "image/") (file_type file)).
  - cbn. destruct (imageLoad browser (objectURL browser n file)) as [wh|]; cbn.
    + right. right. exists wh. split; reflexivity.
    + right. left. split; reflexivity.
  - destruct (startsWith (js "video/") (file_type file)).
    + cbn. destruct (videoLoad browser (objectURL browser n file)) as [wh|]; cbn.
      * right. right. exists wh. split; reflexivity.
      * right. left. split; reflexivity.
    + left. split; reflexivity.
Qed.

Lemma validateAndSetFile_accepted file browser n :
  acceptable file ->
  log (validateAndSetFile file browser n)
  = log (detectAndSetDimensions file browser n)
    ++ [EvSetInputReference (Some file); EvCreateObjectURL file;
        EvSetPreviewUrl
          (Str (objectURL browser (issued (detectAndSetDimensions file browser n)) file))].
Proof.
  intros Ha. unfold validateAndSetFile.
  destruct (acceptable_tests file) as [(_ & E1 & E2)|(Hn & _)]; [|contradiction].
  rewrite E1, E2. reflexivity.
Qed.

Lemma dimensions_text_valid wh :
  VideoService.normalizeSize (dimensions_text wh) = inr (dimensions_text wh).
Proof.
  destruct (normalizeSize_cases (dimensions_text wh)) as [[_ E]|[Hn _]]; [exact E|].
  exfalso. apply Hn. exists (decimal (fst wh)), (decimal (snd wh)).
  repeat split; try apply decimal_nonempty; apply decimal_digits_Forall.
Qed.

Lemma validateAndSetFile_value file browser n :
  acceptable file -> value (validateAndSetFile file browser n) = true.
Proof.
  intros Ha. unfold validateAndSetFile.
  destruct (acceptable_tests file) as [(_ & E1 & E2)|(Hn & _)]; [|contradiction].
  rewrite E1, E2. reflexivity.
Qed.

Lemma pasteItems_skips pre rest browser n :
  forallb (fun item => negb (is_media item)) pre = true ->
  pasteItems (pre ++ rest) browser n = pasteItems rest browser n.
Proof.
  induction pre as [|item pre IH]; [reflexivity|].
  cbn [forallb app pasteItems].
  intros H. apply andb_true_iff in H as [Hi Hp].
  unfold is_media in Hi. apply negb_true_iff in Hi. rewrite Hi. apply IH, Hp.
Qed.




Lemma cost_ok_10 : forallb (cost_ok (decimal_literal 10 100) 10) durations = true.
Proof. vm_compute. reflexivity. Qed.
Lemma cost_ok_30 : forallb (cost_ok (decimal_literal 30 100) 30) durations = true.
Proof. vm_compute. reflexivity. Qed.
Lemma cost_ok_50 : forallb (cost_ok (decimal_literal 50 100) 50) durations = true.
Proof. vm_compute. reflexivity. Qed.
Lemma cost_ok_0 : forallb (cost_ok (double_of_Z 0) 0) durations = true.
Proof. vm_compute. reflexivity. Qed.

Lemma durations_In d : (d <= 3600)%N -> In d durations.
Proof.
  intros H. unfold durations. apply in_map_iff. exists (N.to_nat d).
  split; [apply N2Nat.id | apply in_seq; lia].
Qed.

Lemma cost_ok_spec price cents d :
  cost_ok price cents d = true ->
  toFixed2 (mul (double_of_Z (Z.of_N d)) price) = Some (cents_text (d * cents)).
Proof.
  unfold cost_ok. destruct (toFixed2 _) as [text|]; [|discriminate].
  intros H. apply jsstring_eqb_eq in H. congruence.
Qed.

(** A duration the service accepts is read alike with and without radix:
    a hexadecimal prefix would make it 0 for the service. *)
Lemma parseInt_auto_agrees (s : jsstring) :
  VideoService.normalizeSeconds (VideoService.OfString s) = inr s ->
  parseInt_auto s = parseInt s.
Proof.
  intros H.
  destruct (normalizeSeconds_cases (VideoService.OfString s))
    as [(z & Ez & Hz & _)|[_ E]]; [|rewrite E in H; discriminate].
  simpl in Ez. rewrite parseInt_auto_eq. unfold parseInt in *.
  destruct (split_sign (trim_start s)) as [sign rest].
  destruct rest as [|c0 [|c digits]]; try reflexivity.
  destruct ((c0 =? 48)%N && ((c =? 120) || (c =? 88))%N) eqn:Eh; [|reflexivity].
  exfalso. apply andb_true_iff in Eh as [E0 Ex]. apply N.eqb_eq in E0. subst c0.
  assert (Hc : is_digit c = false).
  { apply orb_true_iff in Ex as [Ex|Ex]; apply N.eqb_eq in Ex; subst c; reflexivity. }
  cbn [leading_digits] in Ez. rewrite Hc in Ez. simpl in Ez.
  injection Ez as Ez. lia.
Qed.

End CreationFormFacts.

(** ** Further properties of the class *)

Import SpecMore JsMoreFacts VideoServiceMoreFacts.

(** The duration strings [normalizeSeconds] accepts are exactly those made
    of optional leading white space, an optional plus sign, a run of
    decimal digits of positive value, and then any text that does not
    continue the digits; each is returned as it was given. *)
Theorem normalizeSeconds_accepts_exactly (s : jsstring) :
  normalizeSeconds (OfString s) = inr s <-> lenient_numeral s.
Proof.
  split.
  - intros H.
    destruct (normalizeSeconds_cases (OfString s)) as [(z & Ez & Hz & _)|[_ E]];
      [|rewrite E in H; discriminate].
    simpl in Ez. unfold parseInt in Ez.
    destruct (trim_start_split s) as (ws & Es & Hws).
    destruct (split_sign (trim_start s)) as [sg rest] eqn:Esg.
    destruct (leading_digits_split rest) as (tail & Er & Hd & Ht).
    destruct (leading_digits rest) as [|d ds] eqn:El; [discriminate|].
    injection Ez as Ez.
    assert (Hsplit : (sg = 1%Z /\ exists sign, (sign = [] \/ sign = js "+")
                                  /\ trim_start s = sign ++ rest)
                     \/ sg = (-1)%Z).
    { unfold split_sign in Esg. destruct (trim_start s) as [|c t] eqn:Et.
      - injection Esg as <- <-. left. split; [reflexivity|]. exists []. auto.
      - destruct (N.eqb_spec c 45).
        + injection Esg as <- _. right. reflexivity.
        + destruct (N.eqb_spec c 43).
          * injection Esg as <- <-. left. split; [reflexivity|].
            exists (js "+"). subst c. auto.
          * injection Esg as <- <-. left. split; [reflexivity|]. exists []. auto. }
    destruct Hsplit as [[-> (sign & Hsign & Et)]| ->]; [|lia].
    exists ws, sign, (d :: ds), tail. repeat split; try assumption.
    + rewrite Es at 1. rewrite Et, Er. reflexivity.
    + discriminate.
    + lia.
  - intros (ws & sign & ds & tail & -> & Hws & Hsign & Hne & Hds & Ht & Hpos).
    unfold normalizeSeconds. simpl toString.
    rewrite parseInt_lenient by assumption. simpl.
    destruct (Z.leb_spec (Z.of_N (decimal_value ds)) 0); [lia | reflexivity].
Qed.

(** A duration given as a number is accepted exactly when it is a
    positive integer, and comes back as its decimal numeral; zero,
    negative integers, NaN and the infinities are rejected with the
    "Invalid duration" error. *)
Theorem normalizeSeconds_of_number (n : JsNumber) :
  safe_integer n ->
  normalizeSeconds (OfNumber n)
  = match n with
    | NumInt z =>
        if (0 <? z)%Z then inr (decimal (Z.to_N z))
        else inl (duration_message (OfNumber n))
    | _ => inl (duration_message (OfNumber n))
    end.
Proof.
  intros _. destruct n as [z| |[|]]; try reflexivity.
  destruct (Z.ltb_spec 0 z) as [Hz|Hz].
  - replace z with (Z.of_N (Z.to_N z)) at 1 by lia.
    apply normalizeSeconds_canonical. lia.
  - assert (Ep : parseInt (toString (OfNumber (NumInt z))) = NumInt z).
    { unfold toString, number_toString. destruct (Z.ltb_spec z 0) as [Hn|Hn].
      - rewrite parseInt_negative. f_equal. lia.
      - assert (z = 0%Z) by lia. subst z. reflexivity. }
    unfold normalizeSeconds, duration_message. rewrite Ep. simpl.
    destruct (Z.leb_spec z 0); [reflexivity | lia].
Qed.

Lemma normalizeSeconds_of_number_witness :
  normalizeSeconds (OfNumber (NumInt 12)) = inr (js "12")
  /\ normalizeSeconds (OfNumber (NumInt (-4)))
     = inl (NewError (VString
         (js "Invalid duration: -4. Duration must be a positive number."))).
Proof.
  split.
  - exact (normalizeSeconds_of_number (NumInt 12) ltac:(simpl; lia)).
  - exact (normalizeSeconds_of_number (NumInt (-4)) ltac:(simpl; lia)).
Defined.

(** [createVideo] never transmits an unvalidated request: whenever it
    calls the provider or the backend, the size and duration of the
    request have passed validation.  Every call it makes on the provider
    is [videos.create] with the caller's model, prompt, size, duration
    (in string form) and attachment, unchanged; it never asks the
    provider for content; and every request to the backend carries those
    same fields. *)
Theorem createVideo_transmits_validated env config params :
  printable (seconds params) ->
  (forall c req,
      In (EvSdkVideos c req) (trace env (createVideo config params)) ->
      valid_request params
      /\ req = VideosCreate
                 {| vc_model := model params; vc_prompt := prompt params;
                    vc_size := size params;
                    vc_seconds := toString (seconds params);
                    vc_input_reference := input_reference params |})
  /\ (forall c videoId variant,
        ~ In (EvSdkDownloadContent c videoId variant)
             (trace env (createVideo config params)))
  /\ (forall req,
        In (EvFetch req) (trace env (createVideo config params)) ->
        valid_request params
        /\ exists hash_field,
             body req
             = FormBody (hash_field
                         ++ [(js "model", FormString (model params));
                             (js "prompt", FormString (prompt params));
                             (js "size", FormString (size params));
                             (js "seconds", FormString (toString (seconds params)))]
                         ++ match input_reference params with
                            | Some f => [(js "input_reference", FormFile f)]
                            | None => []
                            end)).
Proof.
  intros _.
  destruct (validation params) as [e|] eqn:Ev.
  - unfold trace. rewrite (createVideo_stops_at_validation env config params e Ev).
    split; [|split]; intros; try contradiction. intros [].
  - destruct (validation_none params Ev) as (E1 & E2 & Hv).
    unfold trace, createVideo. rewrite E1, E2. cbn [lift Net.bind].
    split; [|split].
    + intros c req. destruct (mode config); simpl; repeat step;
        intros H; simpl in H; intuition (try discriminate).
      all: match goal with
           | H : EvSdkVideos _ _ = EvSdkVideos _ _ |- _ => injection H as <- <-
           end; reflexivity.
    + intros c videoId variant. destruct (mode config); simpl; repeat step;
        intros H; simpl in H; intuition discriminate.
    + intros req. destruct (mode config); simpl; repeat step;
        intros H; simpl in H; intuition (try discriminate).
      all: same_fetch; simpl.
      all: first [ match goal with
                   | H : present _ = Some ?h |- _ =>
                       exists [(js "passwordHash", FormString h)]; reflexivity
                   end
                 | exists []; reflexivity ].
Qed.

Lemma createVideo_transmits_validated_witness :
  valid_request Examples.cat_params
  /\ VideosCreate {| vc_model := js "sora-2"; vc_prompt := js "cat";
                     vc_size := js "1280x720"; vc_seconds := js "8";
                     vc_input_reference := None |}
     = VideosCreate
         {| vc_model := model Examples.cat_params;
            vc_prompt := prompt Examples.cat_params;
            vc_size := size Examples.cat_params;
            vc_seconds := toString (seconds Examples.cat_params);
            vc_input_reference := input_reference Examples.cat_params |}.
Proof.
  exact (proj1 (createVideo_transmits_validated Examples.serving
                  Examples.frontend_config Examples.cat_params I)
           0%N _ (or_intror (or_introl eq_refl))).
Defined.

(** No operation retries or fans out.  Whatever the environment answers,
    a call makes no call at all, or one [fetch] (backend mode), or builds
    one client from the configured key and base URL and then makes at
    most one SDK call on that client (frontend mode). *)
Theorem single_attempt env config call :
  trace env (perform config call) = []
  \/ (mode config = Backend /\ exists req, trace env (perform config call) = [EvFetch req])
  \/ (mode config = Frontend
      /\ exists apiKey,
           present (clientApiKey config) = Some apiKey
           /\ (((exists thrown, env_client env apiKey (baseURL config) = inl thrown)
                /\ trace env (perform config call)
                   = [EvCreateClient apiKey (baseURL config)])
               \/ exists c,
                    env_client env apiKey (baseURL config) = inr c
                    /\ ((exists req, trace env (perform config call)
                                     = [EvCreateClient apiKey (baseURL config);
                                        EvSdkVideos c req])
                        \/ (exists id v, trace env (perform config call)
                                         = [EvCreateClient apiKey (baseURL config);
                                            EvSdkDownloadContent c id v])))).
Proof.
  unfold trace.
  destruct (mode config) eqn:Hm; destruct call; unfold_ops; rewrite Hm; simpl;
    repeat step; auto;
    try (right; left; split; [reflexivity|]; eexists; reflexivity);
    right; right; (split; [reflexivity|]); eexists; (split; [reflexivity|]);
    first [ left; split; [eexists; eassumption | reflexivity]
          | right; eexists; split; [eassumption|];
            first [ left; eexists; reflexivity | right; do 2 eexists; reflexivity ] ].
Qed.

(** In backend mode, when a non-2xx response has a JSON body whose error
    field is missing or falsy (empty string, null, 0, false),
    [createVideo] and [remixVideo] report "API request failed with
    status" followed by the status code, and [deleteVideo] reports
    "Failed to delete video". *)
Theorem backend_error_fallback env config call req r payload v :
  mode config = Backend -> reads_error_body call = true ->
  In (EvFetch req) (trace env (perform config call)) ->
  env_fetch env req = inr r -> ok r = false -> json r = inr payload ->
  get_prop payload (js "error") = Some v -> truthy v = false ->
  result env (perform config call)
  = inl (NewError (VString
      match call with
      | Delete _ => js "Failed to delete video"
      | _ => js "API request failed with status " ++ decimal (status r)
      end)).
Proof.
  intros Hm Hc. unfold trace, result.
  destruct call; try discriminate; unfold_ops; rewrite Hm; simpl; repeat step;
    intros Hin Hr Hok Hj Hp Hv; simpl in Hin; intuition (try discriminate);
    same_fetch; settle; try congruence.
  all: unfold or_else; rewrite Hv; reflexivity.
Qed.

Lemma backend_error_fallback_witness :
  result (ExamplesMore.answering ExamplesMore.plain_failure)
         (perform Examples.backend_no_hash (Create Examples.cat_params))
  = inl (NewError (VString (js "API request failed with status 500"))).
Proof.
  exact (backend_error_fallback (ExamplesMore.answering ExamplesMore.plain_failure)
           Examples.backend_no_hash (Create Examples.cat_params) _
           ExamplesMore.plain_failure
           (VObject [(js "detail", VString (js "boom"))]) VUndefined
           eq_refl eq_refl (or_introl eq_refl) eq_refl eq_refl eq_refl eq_refl eq_refl).
Defined.

(** In backend mode, when [fetch] itself rejects (network failure),
    every operation fails with the very value [fetch] rejected with. *)
Theorem fetch_rejection_propagates env config call req thrown :
  mode config = Backend ->
  In (EvFetch req) (trace env (perform config call)) ->
  env_fetch env req = inl thrown ->
  result env (perform config call) = inl (Foreign thrown).
Proof.
  intros Hm Hin. apply (backend_outcomes env config call req Hm Hin).
Qed.

Lemma fetch_rejection_propagates_witness :
  result Examples.broken (perform Examples.backend_config (Retrieve Examples.video_id))
  = inl (Foreign VUndefined).
Proof.
  exact (fetch_rejection_propagates Examples.broken Examples.backend_config
           (Retrieve Examples.video_id) _ VUndefined
           eq_refl (or_introl eq_refl) eq_refl).
Defined.

(** In backend mode a body that cannot be read decides the outcome: on a
    non-2xx response, [createVideo], [remixVideo] and [deleteVideo] fail
    with the rejection of [json()] (the HTTP status is not reported); on
    a 2xx response, the operations that return a job fail with the
    rejection of [json()] and [downloadContent] with that of [blob()]. *)
Theorem unreadable_body_propagates env config call req r thrown :
  mode config = Backend ->
  In (EvFetch req) (trace env (perform config call)) ->
  env_fetch env req = inr r ->
  (ok r = false -> reads_error_body call = true -> json r = inl thrown ->
   result env (perform config call) = inl (Foreign thrown))
  /\ (ok r = true ->
      match call with
      | Delete _ => True
      | Download _ _ =>
          blob r = inl thrown ->
          result env (perform config call) = inl (Foreign thrown)
      | _ =>
          json r = inl thrown ->
          result env (perform config call) = inl (Foreign thrown)
      end).
Proof.
  intros Hm Hin Hr.
  destruct (backend_outcomes env config call req Hm Hin) as (_ & H2 & _ & H4).
  split.
  - intros Hok Hc Hj. apply (H2 r thrown Hr Hok Hc Hj).
  - intros Hok. specialize (H4 r thrown Hr Hok). destruct call; auto.
Qed.

Lemma unreadable_body_propagates_witness :
  result (ExamplesMore.answering ExamplesMore.gateway_failure)
         (perform Examples.backend_config (Remix Examples.video_id (js "dog")))
  = inl (Foreign ExamplesMore.not_json).
Proof.
  exact (proj1 (unreadable_body_propagates
                  (ExamplesMore.answering ExamplesMore.gateway_failure)
                  Examples.backend_config (Remix Examples.video_id (js "dog")) _
                  ExamplesMore.gateway_failure ExamplesMore.not_json
                  eq_refl (or_introl eq_refl) eq_refl)
               eq_refl eq_refl eq_refl).
Defined.

(** In backend mode, when a non-2xx response has the JSON body null,
    [createVideo], [remixVideo] and [deleteVideo] fail with the TypeError
    of reading [error] off it. *)
Theorem null_error_body_is_TypeError env config call req r :
  mode config = Backend -> reads_error_body call = true ->
  In (EvFetch req) (trace env (perform config call)) ->
  env_fetch env req = inr r -> ok r = false -> json r = inr VNull ->
  result env (perform config call) = inl TypeError.
Proof.
  intros Hm Hc Hin Hr Hok Hj.
  destruct (backend_outcomes env config call req Hm Hin) as (_ & _ & H3 & _).
  apply (H3 r VNull Hr Hok Hc Hj). left. reflexivity.
Qed.

Lemma null_error_body_is_TypeError_witness :
  result (ExamplesMore.answering ExamplesMore.null_failure)
         (perform Examples.backend_config (Delete Examples.video_id))
  = inl TypeError.
Proof.
  exact (null_error_body_is_TypeError
           (ExamplesMore.answering ExamplesMore.null_failure)
           Examples.backend_config (Delete Examples.video_id) _
           ExamplesMore.null_failure
           eq_refl eq_refl (or_introl eq_refl) eq_refl eq_refl eq_refl).
Defined.

(** In backend mode [deleteVideo] resolves on any 2xx response without
    reading its body: neither an empty nor an unparsable body makes it
    fail. *)
Theorem delete_resolves_on_any_2xx env config videoId req r :
  mode config = Backend ->
  In (EvFetch req) (trace env (perform config (Delete videoId))) ->
  env_fetch env req = inr r -> ok r = true ->
  result env (perform config (Delete videoId)) = inr Deleted.
Proof.
  intros Hm Hin Hr Hok.
  destruct (backend_outcomes env config (Delete videoId) req Hm Hin) as (_ & _ & _ & H4).
  apply (H4 r VUndefined Hr Hok).
Qed.

Lemma delete_resolves_on_any_2xx_witness :
  result (ExamplesMore.answering ExamplesMore.no_content)
         (perform Examples.backend_config (Delete Examples.video_id))
  = inr Deleted.
Proof.
  exact (delete_resolves_on_any_2xx
           (ExamplesMore.answering ExamplesMore.no_content)
           Examples.backend_config Examples.video_id _ ExamplesMore.no_content
           eq_refl (or_introl eq_refl) eq_refl eq_refl).
Defined.

(** In backend mode a configured password hash (a non-empty string) is
    attached to every request, through the channel of the operation: the
    first form field of a creation (and no other field has its name), the
    passwordHash member of a remix body, the x-password-hash header of a
    retrieval or deletion, and both that header and the URI-encoded
    password-hash query parameter of a download. *)
Theorem backend_attaches_hash env config call req h :
  mode config = Backend -> present (clientPasswordHash config) = Some h ->
  In (EvFetch req) (trace env (perform config call)) ->
  match call with
  | Create _ =>
      exists rest, body req = FormBody ((js "passwordHash", FormString h) :: rest)
                   /\ ~ In (js "passwordHash") (map fst rest)
  | Remix _ prompt =>
      body req = JsonBody [(js "prompt", VString prompt);
                           (js "passwordHash", VString h)]
  | Retrieve _ | Delete _ => headers req = [(js "x-password-hash", h)]
  | Download videoId variant =>
      headers req = [(js "x-password-hash", h)]
      /\ exists encoded,
           encodeURIComponent h = Some encoded
           /\ url req = js "/api/videos/" ++ videoId ++ js "/content?variant="
                        ++ variant_text (default_variant variant)
                        ++ js "&password-hash=" ++ encoded
  end.
Proof.
  intros Hm Hh. unfold trace.
  assert (Hs : clientPasswordHash config = Str h).
  { unfold present in Hh. destruct (clientPasswordHash config) as [| |[|c s]];
      try discriminate. injection Hh as <-. reflexivity. }
  destruct call as [params| | | |videoId variant]; unfold_ops; unfold hash_headers;
    rewrite Hm, ?Hh; simpl; rewrite ?Hs; simpl;
    try destruct (input_reference params);
    repeat step; intros H; simpl in H; intuition (try discriminate).
  all: same_fetch; simpl; try reflexivity.
  all: try (eexists; split; [reflexivity|]; simpl; intuition discriminate).
  all: eexists; split; [reflexivity|];
    rewrite <- ?app_assoc; simpl; rewrite <- ?app_assoc; reflexivity.
Qed.

Lemma backend_attaches_hash_witness :
  headers {| url := js "/api/videos/video_123"; method := js "GET";
             headers := [(js "x-password-hash", js "5e884898da28")];
             body := NoBody |}
  = [(js "x-password-hash", js "5e884898da28")].
Proof.
  exact (backend_attaches_hash Examples.serving Examples.backend_config
           (Retrieve Examples.video_id) _ (js "5e884898da28")
           eq_refl eq_refl (or_introl eq_refl)).
Defined.

(** The password-hash query parameter of a download cannot be broken out
    of: the configured hash (any string of 16-bit code units that encodes)
    is appended URI-encoded, so what follows "&password-hash=" holds only
    unreserved characters and percent escapes, and none of the URL
    delimiters. *)
Theorem download_hash_parameter env config videoId variant req h :
  mode config = Backend -> present (clientPasswordHash config) = Some h ->
  well_formed_units h ->
  In (EvFetch req) (trace env (downloadContent config videoId variant)) ->
  exists encoded,
    url req = js "/api/videos/" ++ videoId ++ js "/content?variant="
              ++ variant_text (default_variant variant)
              ++ js "&password-hash=" ++ encoded
    /\ forallb is_component_char encoded = true
    /\ (forall c, In c (js "&=#?/ +") -> ~ In c encoded).
Proof.
  intros Hm Hh Hw. unfold trace, downloadContent. rewrite Hm, Hh. simpl.
  destruct (encodeURIComponent h) as [encoded|] eqn:He; simpl; [|intros []].
  assert (Hc : forallb is_component_char encoded = true).
  { apply (encodeURIComponent_chars h encoded Hw He). }
  repeat step; intros H; simpl in H; intuition (try discriminate).
  all: same_fetch; simpl; exists encoded; split;
    [rewrite <- ?app_assoc; simpl; rewrite <- ?app_assoc; reflexivity|];
    split; [exact Hc|].
  all: intros c Hin Hin2; rewrite forallb_forall in Hc; apply Hc in Hin2;
    simpl in Hin; intuition (subst c; discriminate).
Qed.

Lemma download_hash_parameter_witness :
  exists encoded,
    js "/api/videos/video_123/content?variant=video&password-hash=a%26b%3Dc"
    = js "/api/videos/" ++ Examples.video_id ++ js "/content?variant="
      ++ variant_text (default_variant None) ++ js "&password-hash=" ++ encoded
    /\ forallb is_component_char encoded = true
    /\ (forall c, In c (js "&=#?/ +") -> ~ In c encoded).
Proof.
  refine (download_hash_parameter Examples.serving ExamplesMore.odd_hash_config
            Examples.video_id None
            {| url := js "/api/videos/video_123/content?variant=video&password-hash=a%26b%3Dc";
               method := js "GET";
               headers := [(js "x-password-hash", js "a&b=c")];
               body := NoBody |}
            (js "a&b=c") eq_refl eq_refl _ (or_introl eq_refl)).
  repeat constructor.
Defined.

(** ** Properties of the creation form *)

Import JsMore CreationForm CreationFormFacts.

(** [validateAndSetFile] accepts a file exactly when it is at most 100 MB
    (104857600 bytes, the bound included) and of type JPEG, PNG, WebP or
    MP4.  A rejected file changes nothing: the only call made is one
    alert, no setter runs and no object URL is created. *)
Theorem validateAndSetFile_verdict browser n file :
  (value (validateAndSetFile file browser n) = true <-> acceptable file)
  /\ (~ acceptable file ->
      issued (validateAndSetFile file browser n) = n
      /\ exists message, log (validateAndSetFile file browser n) = [EvAlert message]).
Proof.
  split.
  - split.
    + intros H. destruct (acceptable_tests file) as [(Ha & _)|(Hn & _)]; [exact Ha|].
      destruct (validateAndSetFile_rejected browser n file Hn) as (E & _).
      congruence.
    + apply validateAndSetFile_value.
  - intros Hn. apply (validateAndSetFile_rejected browser n file Hn).
Qed.

(** Choosing a file: only the first selected file is looked at.  When it
    is rejected the handler alerts and then clears the file input (if it
    is mounted), and nothing else; when it is accepted the input is left
    alone. *)
Theorem selection_is_cleared_when_rejected props file others browser n :
  (~ acceptable file ->
   exists message,
     log (handleInputReferenceChange props (file :: others) browser n)
     = EvAlert message
       :: (if fileInputMounted props then [EvClearFileInput] else []))
  /\ (acceptable file ->
      log (handleInputReferenceChange props (file :: others) browser n)
      = log (validateAndSetFile file browser n)
      /\ ~ In EvClearFileInput (log (validateAndSetFile file browser n))).
Proof.
  unfold handleInputReferenceChange. split.
  - intros Hn.
    destruct (validateAndSetFile_rejected browser n file Hn) as (Ev & _ & m & El).
    exists m. cbn [CreationForm.bind log]. rewrite Ev, El. simpl.
    destruct (fileInputMounted props); reflexivity.
  - intros Ha. pose proof (validateAndSetFile_value file browser n Ha) as Ev.
    cbn [CreationForm.bind log]. rewrite Ev. simpl. rewrite app_nil_r.
    split; [reflexivity|].
    rewrite (validateAndSetFile_accepted file browser n Ha), in_app_iff.
    intros [H|H].
    + destruct (detect_cases file browser n) as [[E _]|[[E _]|(wh & E & _)]];
        rewrite E in H; simpl in H; intuition discriminate.
    + simpl in H. intuition discriminate.
Qed.

(** The size the form detects from an image or a video always passes the
    service's size validation: every size [validateAndSetFile] sets is
    accepted by [normalizeSize] unchanged. *)
Theorem detected_size_is_valid file browser n s :
  In (EvSetSize s) (log (validateAndSetFile file browser n)) ->
  VideoService.normalizeSize s = inr s.
Proof.
  destruct (acceptable_tests file) as [(Ha & _)|(Hn & _)].
  - rewrite (validateAndSetFile_accepted file browser n Ha).
    rewrite in_app_iff. intros [H|H].
    + destruct (detect_cases file browser n) as [[E _]|[[E _]|(wh & E & _)]];
        rewrite E in H; simpl in H; intuition (try discriminate).
      match goal with H : EvSetSize _ = EvSetSize _ |- _ => injection H as <- end.
      apply dimensions_text_valid.
    + simpl in H. intuition discriminate.
  - destruct (validateAndSetFile_rejected browser n file Hn) as (_ & _ & m & E).
    rewrite E. simpl. intuition discriminate.
Qed.

Lemma detected_size_is_valid_witness :
  VideoService.normalizeSize (js "1280x720") = inr (js "1280x720").
Proof.
  refine (detected_size_is_valid ExamplesMore.photo ExamplesMore.browser 0
            (js "1280x720") _).
  right. left. reflexivity.
Defined.



(** Pasting handles the first clipboard item that is an image or a video,
    and only that one: earlier items are skipped, later ones are never
    looked at; the default paste is prevented and the item's file, if it
    has one, is validated.  Without such an item (or without clipboard
    items at all) the handler does nothing. *)
Theorem handlePaste_first_media browser n :
  (forall pre item post,
      forallb (fun i => negb (is_media i)) pre = true -> is_media item = true ->
      log (handlePaste (Some (pre ++ item :: post)) browser n)
      = EvPreventDefault
        :: match getAsFile item with
           | Some file => log (validateAndSetFile file browser n)
           | None => []
           end)
  /\ (forall items,
        forallb (fun i => negb (is_media i)) items = true ->
        log (handlePaste (Some items) browser n) = []
        /\ issued (handlePaste (Some items) browser n) = n)
  /\ log (handlePaste None browser n) = [].
Proof.
  split; [|split].
  - intros pre item post Hpre Hitem. unfold handlePaste.
    rewrite (pasteItems_skips pre (item :: post) browser n Hpre).
    cbn [pasteItems]. unfold is_media in Hitem. rewrite Hitem.
    destruct (getAsFile item) as [file|]; cbn.
    + rewrite app_nil_r. reflexivity.
    + reflexivity.
  - intros items H. unfold handlePaste.
    rewrite <- (app_nil_r items), (pasteItems_skips items [] browser n H).
    split; reflexivity.
  - reflexivity.
Qed.

(** The submit button is enabled exactly when the form is not loading and
    the prompt has a character that is not white space. *)
Theorem submit_enabled_iff props :
  submitDisabled props = false
  <-> isLoading props = false
      /\ exists c, In c (prompt props) /\ is_whitespace c = false.
Proof.
  unfold submitDisabled. rewrite orb_false_iff, negb_false_iff.
  assert (E : truthy (VString (trim (prompt props))) = true
              <-> exists c, In c (prompt props) /\ is_whitespace c = false).
  { destruct (forallb is_whitespace (prompt props)) eqn:Hf.
    - pose proof (proj2 (trim_nil _) Hf) as Ht. rewrite Ht. simpl.
      split; [discriminate|].
      intros (c & Hc & Hw). rewrite forallb_forall in Hf. rewrite (Hf c Hc) in Hw.
      discriminate.
    - split.
      + intros _.
        assert (Hex : existsb (fun c => negb (is_whitespace c)) (prompt props) = true).
        { induction (prompt props) as [|c l IH]; simpl in *; [discriminate|].
          destruct (is_whitespace c); simpl in *; [apply IH, Hf | reflexivity]. }
        apply existsb_exists in Hex as (c & Hc & Hw). exists c.
        split; [exact Hc | apply negb_true_iff, Hw].
      + intros _. destruct (trim (prompt props)) eqn:Et; [|reflexivity].
        apply trim_nil in Et. congruence. }
  rewrite E. reflexivity.
Qed.

(** The form prices a duration at the number of seconds the service
    validates: for every duration string [normalizeSeconds] accepts,
    [parseInt] without radix (the form) and with radix 10 (the service)
    read the same integer. *)
Theorem estimate_uses_validated_duration (s : jsstring) :
  VideoService.normalizeSeconds (VideoService.OfString s) = inr s ->
  parseInt_auto s = parseInt s.
Proof. apply parseInt_auto_agrees. Qed.

Lemma estimate_uses_validated_duration_witness :
  parseInt_auto (js " +8 seconds") = parseInt (js " +8 seconds").
Proof. exact (estimate_uses_validated_duration (js " +8 seconds") eq_refl). Defined.

(** For every whole duration up to one hour, given as its decimal
    numeral, the estimate shown is the exact price: the duration times
    10, 30 or 50 cents per second by model and size (0 for any other
    model), with two decimals.  Binary rounding never shows. *)
Theorem estimated_cost_is_exact props d :
  (d <= 3600)%N -> seconds props = decimal d ->
  estimatedCostText props = Some (cents_text (d * price_cents props)).
Proof.
  intros Hd Hs. unfold estimatedCostText, calculateEstimatedCost, price_cents.
  rewrite Hs, parseInt_auto_digits by (apply decimal_nonempty || apply decimal_digits).
  rewrite decimal_value_decimal. cbn [double_of_number].
  pose proof (durations_In d Hd) as Hin.
  destruct (jsstring_eqb (model props) (js "sora-2")).
  - apply cost_ok_spec. pose proof cost_ok_10 as H.
    rewrite forallb_forall in H. apply H, Hin.
  - destruct (jsstring_eqb (model props) (js "sora-2-pro")).
    + destruct (jsstring_eqb (size props) (js "1024x1792")
                || jsstring_eqb (size props) (js "1792x1024")).
      * apply cost_ok_spec. pose proof cost_ok_50 as H.
        rewrite forallb_forall in H. apply H, Hin.
      * apply cost_ok_spec. pose proof cost_ok_30 as H.
        rewrite forallb_forall in H. apply H, Hin.
    + apply cost_ok_spec. pose proof cost_ok_0 as H.
      rewrite forallb_forall in H. apply H, Hin.
Qed.

Lemma estimated_cost_is_exact_witness :
  estimatedCostText ExamplesMore.form = Some (js "6.00").
Proof.
  exact (estimated_cost_is_exact ExamplesMore.form 12 ltac:(lia) eq_refl).
Defined.
